(** * TrenchBank: deposit ledger, webhook receivers, balance and card stores

    A shallow embedding of the serverless routes of the repository and of
    the pending-deposits tracker they share, with the properties the
    specification states about them.

    Conventions of the embedding.
    - The managed key-value store is a record [KV] with one field per key
      prefix; a handler is a function from the store to a response and a
      new store.  A missing key and an empty list read the same through
      [loadPendingDeposits] ([deposits || []]), so the list itself is kept.
      The store is taken to be reliable: [kv.get] and [kv.set] do not throw.
    - A JavaScript [number] is an IEEE-754 binary64 value: [float].
      The store keeps a number as the handler wrote it.  The real store
      serialises its values as JSON, which gives back every finite number
      but [-0] (read back as [0]) and turns [NaN] and the infinities into
      [null]; [Js.json_exact] says a number survives, and a property of
      numbers read back from the store assumes it of the numbers written.
    - An optional property is an [option]; a property that is absent and
      one that holds [undefined] are the same once the record went through
      the store, which serialises it as JSON.
    - What a handler reads from outside the store (the clock, the random
      UUID, the reply of the card-creation endpoint) is an argument. *)

From Stdlib Require Import ZArith Lia.
From Stdlib Require Import Floats.PrimFloat.
From stdpp Require Import base option list gmap strings.

Set Warnings "-inexact-float".
Local Open Scope string_scope.

(** ** JavaScript values *)

Module Js.

Abbreviation number := float (only parsing).

(** [!!s] for a string: every string but the empty one is truthy. *)
Definition truthy_string (s : string) : bool := negb (String.eqb s "").

(** [!!b] for an optional boolean: [undefined] is falsy. *)
Definition truthy_flag (b : option bool) : bool := default false b.

(** [!!s] for an optional string. *)
Definition truthy_opt (s : option string) : bool :=
  match s with Some v => truthy_string v | None => false end.

(** [x || 0] for a number: [NaN], [0] and [-0] are falsy. *)
Definition or_zero (x : number) : number :=
  if (is_nan x || is_zero x)%bool then 0%float else x.

(** [JSON.parse(JSON.stringify(x)) === x], sign of zero included: [x] is
    finite and is not [-0]. *)
Definition json_exact (x : number) : bool :=
  is_finite x && negb (is_zero x && get_sign x).

End Js.

(** ** Data model *)

Inductive DepositStatus : Set :=
  | pending | sent | confirmed | credited | failed | expired.

#[global] Instance DepositStatus_eq_dec : EqDecision DepositStatus.
Proof. solve_decision. Defined.

(** [interface PendingDeposit] *)
Record PendingDeposit : Type := mkPendingDeposit {
  id : string;
  paymentId : string;
  walletAddress : option string;
  amountUsd : Js.number;
  amountCrypto : option string;
  currency : string;
  depositAddress : option string;
  cryptomusUrl : option string;
  transactionSignature : option string;
  status : DepositStatus;
  createdAt : string;
  sentAt : option string;
  confirmedAt : option string;
  creditedAt : option string;
  cardCreated : option bool;
  cardId : option string;
  error : option string
}.

(** [Omit<PendingDeposit, 'id' | 'createdAt' | 'status'>] *)
Record NewDeposit : Type := mkNewDeposit {
  n_paymentId : string;
  n_walletAddress : option string;
  n_amountUsd : Js.number;
  n_amountCrypto : option string;
  n_currency : string;
  n_depositAddress : option string;
  n_cryptomusUrl : option string;
  n_transactionSignature : option string;
  n_sentAt : option string;
  n_confirmedAt : option string;
  n_creditedAt : option string;
  n_cardCreated : option bool;
  n_cardId : option string;
  n_error : option string
}.

(** [Partial<PendingDeposit>]: [None] is a property the object does not
    have; for an optional property, [Some None] is the property present
    and [undefined] (as [markDepositAsCredited] passes [cardId]). *)
Record PartialDeposit : Type := mkPartialDeposit {
  p_id : option string;
  p_paymentId : option string;
  p_walletAddress : option (option string);
  p_amountUsd : option Js.number;
  p_amountCrypto : option (option string);
  p_currency : option string;
  p_depositAddress : option (option string);
  p_cryptomusUrl : option (option string);
  p_transactionSignature : option (option string);
  p_status : option DepositStatus;
  p_createdAt : option string;
  p_sentAt : option (option string);
  p_confirmedAt : option (option string);
  p_creditedAt : option (option string);
  p_cardCreated : option (option bool);
  p_cardId : option (option string);
  p_error : option (option string)
}.

(** The object literal [{}]. *)
Definition no_fields : PartialDeposit :=
  mkPartialDeposit None None None None None None None None None
                   None None None None None None None None.

(** [interface WebhookDeposit] of the deposit webhook. *)
Record WebhookDeposit : Type := mkWebhookDeposit {
  wd_orderId : string;
  wd_walletAddress : string;
  wd_amount : Js.number;
  wd_status : string;
  wd_paymentId : string;
  wd_paidAt : option string
}.

(** [interface UserBalance] *)
Record UserBalance : Type := mkUserBalance {
  balance : Js.number;
  totalDeposited : Js.number;
  totalSpent : Js.number;
  lastUpdated : string
}.

Inductive CardStatus : Set := active | frozen | inactive.

(** [interface StoredCard] *)
Record StoredCard : Type := mkStoredCard {
  c_id : string;
  c_cardId : string;
  c_walletAddress : string;
  c_createdAt : string;
  c_lastFour : option string;
  c_status : CardStatus;
  c_balance : option Js.number;
  c_cardNumber : option string;
  c_cvv : option string;
  c_expiry : option string;
  c_cardHolder : option string
}.

(** [interface CryptomusWebhook]: the payload of the payment processor. *)
Record CryptomusWebhook : Type := mkCryptomusWebhook {
  w_type : string;
  w_uuid : string;
  w_order_id : string;
  w_amount : string;
  w_payment_amount : string;
  w_payment_amount_usd : string;
  w_merchant_amount : string;
  w_commission : string;
  w_is_final : bool;
  w_status : string;
  w_from : string;
  w_wallet_address_uuid : string;
  w_network : string;
  w_currency : string;
  w_payer_currency : string;
  w_additional_data : string;
  w_txid : string;
  w_sign : option string
}.

(** ** The key-value store *)

(** One field per key or key prefix: ['pending_deposits'],
    ['webhook_deposit:' + orderId], ['balance:' + wallet],
    ['cards:' + wallet]. *)
Record KV : Type := mkKV {
  pending_deposits : list PendingDeposit;
  webhook_deposit : gmap string WebhookDeposit;
  balances : gmap string UserBalance;
  cards : gmap string (list StoredCard)
}.

Definition kv_empty : KV := mkKV [] ∅ ∅ ∅.

(** Handlers thread the store: a small state monad. *)
Definition Store (A : Type) : Type := KV → A * KV.

#[global] Instance Store_ret : MRet Store := λ A (a : A) kv, (a, kv).
#[global] Instance Store_bind : MBind Store :=
  λ A B (k : A → Store B) (m : Store A) kv, let (a, kv') := m kv in k a kv'.

Definition run {A} (m : Store A) (kv : KV) : A * KV := m kv.
Definition result {A} (m : Store A) (kv : KV) : A := fst (run m kv).
Definition after {A} (m : Store A) (kv : KV) : KV := snd (run m kv).

(** ** The pending-deposits tracker *)

(** [{ ...d, ...additionalData, status }] *)
Definition spread (d : PendingDeposit) (additionalData : PartialDeposit)
    (st : DepositStatus) : PendingDeposit :=
  {| id := default (id d) (p_id additionalData);
     paymentId := default (paymentId d) (p_paymentId additionalData);
     walletAddress := default (walletAddress d) (p_walletAddress additionalData);
     amountUsd := default (amountUsd d) (p_amountUsd additionalData);
     amountCrypto := default (amountCrypto d) (p_amountCrypto additionalData);
     currency := default (currency d) (p_currency additionalData);
     depositAddress := default (depositAddress d) (p_depositAddress additionalData);
     cryptomusUrl := default (cryptomusUrl d) (p_cryptomusUrl additionalData);
     transactionSignature :=
       default (transactionSignature d) (p_transactionSignature additionalData);
     status := st;
     createdAt := default (createdAt d) (p_createdAt additionalData);
     sentAt := default (sentAt d) (p_sentAt additionalData);
     confirmedAt := default (confirmedAt d) (p_confirmedAt additionalData);
     creditedAt := default (creditedAt d) (p_creditedAt additionalData);
     cardCreated := default (cardCreated d) (p_cardCreated additionalData);
     cardId := default (cardId d) (p_cardId additionalData);
     error := default (error d) (p_error additionalData) |}.

(** [deposit.status = st], the in-place assignment of the expiry sweep. *)
Definition set_status (d : PendingDeposit) (st : DepositStatus) : PendingDeposit :=
  {| id := id d; paymentId := paymentId d; walletAddress := walletAddress d;
     amountUsd := amountUsd d; amountCrypto := amountCrypto d;
     currency := currency d; depositAddress := depositAddress d;
     cryptomusUrl := cryptomusUrl d;
     transactionSignature := transactionSignature d;
     status := st;
     createdAt := createdAt d; sentAt := sentAt d;
     confirmedAt := confirmedAt d; creditedAt := creditedAt d;
     cardCreated := cardCreated d; cardId := cardId d; error := error d |}.

(** [l.findIndex(p)], with [None] for [-1], and [l.find(p)], with [None]
    for [undefined]: the first element that satisfies the predicate. *)
Definition findIndex {A} (P : A → Prop) `{∀ x, Decision (P x)} (l : list A)
    : option nat := fst <$> list_find P l.

Definition find {A} (P : A → Prop) `{∀ x, Decision (P x)} (l : list A)
    : option A := snd <$> list_find P l.

Definition loadPendingDeposits : Store (list PendingDeposit) :=
  λ kv, (pending_deposits kv, kv).

Definition savePendingDeposits (deposits : list PendingDeposit) : Store unit :=
  λ kv, (tt, {| pending_deposits := deposits;
                webhook_deposit := webhook_deposit kv;
                balances := balances kv;
                cards := cards kv |}).

(** [uuid] is what [crypto.randomUUID()] returns and [now] what
    [new Date().toISOString()] returns in this call. *)
Definition addPendingDeposit (uuid now : string) (deposit : NewDeposit)
    : Store PendingDeposit :=
  deposits ← loadPendingDeposits;
  let newDeposit :=
    {| id := uuid;
       paymentId := n_paymentId deposit;
       walletAddress := n_walletAddress deposit;
       amountUsd := n_amountUsd deposit;
       amountCrypto := n_amountCrypto deposit;
       currency := n_currency deposit;
       depositAddress := n_depositAddress deposit;
       cryptomusUrl := n_cryptomusUrl deposit;
       transactionSignature := n_transactionSignature deposit;
       status := pending;
       createdAt := now;
       sentAt := n_sentAt deposit;
       confirmedAt := n_confirmedAt deposit;
       creditedAt := n_creditedAt deposit;
       cardCreated := n_cardCreated deposit;
       cardId := n_cardId deposit;
       error := n_error deposit |} in
  _ ← savePendingDeposits (deposits ++ [newDeposit]);
  mret newDeposit.

(** The result is the record written, or [None] for [null]. *)
Definition updateDepositStatus (paymentId' : string) (st : DepositStatus)
    (additionalData : PartialDeposit) : Store (option PendingDeposit) :=
  deposits ← loadPendingDeposits;
  match findIndex (λ d, paymentId d = paymentId') deposits with
  | Some index =>
      match deposits !! index with
      | Some d =>
          let d' := spread d additionalData st in
          _ ← savePendingDeposits (<[index := d']> deposits);
          mret (Some d')
      | None => mret None
      end
  | None => mret None
  end.

Definition getDepositByPaymentId (paymentId' : string)
    : Store (option PendingDeposit) :=
  deposits ← loadPendingDeposits;
  mret (find (λ d, paymentId d = paymentId') deposits).

Definition getDepositsByWallet (walletAddress' : string)
    : Store (list PendingDeposit) :=
  deposits ← loadPendingDeposits;
  mret (filter (λ d, walletAddress d = Some walletAddress') deposits).

Definition getPendingDeposits : Store (list PendingDeposit) :=
  deposits ← loadPendingDeposits;
  mret (filter (λ d, status d = pending ∨ status d = sent) deposits).

Definition getConfirmedDeposits : Store (list PendingDeposit) :=
  deposits ← loadPendingDeposits;
  mret (filter (λ d, status d = confirmed ∨ status d = credited) deposits).

Definition markDepositAsSent (now : string) (paymentId' transactionSignature' : string)
    : Store (option PendingDeposit) :=
  updateDepositStatus paymentId' sent
    {| p_id := None; p_paymentId := None; p_walletAddress := None;
       p_amountUsd := None; p_amountCrypto := None; p_currency := None;
       p_depositAddress := None; p_cryptomusUrl := None;
       p_transactionSignature := Some (Some transactionSignature');
       p_status := None; p_createdAt := None;
       p_sentAt := Some (Some now);
       p_confirmedAt := None; p_creditedAt := None; p_cardCreated := None;
       p_cardId := None; p_error := None |}.

Definition markDepositAsConfirmed (now : string) (paymentId' : string)
    : Store (option PendingDeposit) :=
  updateDepositStatus paymentId' confirmed
    {| p_id := None; p_paymentId := None; p_walletAddress := None;
       p_amountUsd := None; p_amountCrypto := None; p_currency := None;
       p_depositAddress := None; p_cryptomusUrl := None;
       p_transactionSignature := None;
       p_status := None; p_createdAt := None; p_sentAt := None;
       p_confirmedAt := Some (Some now);
       p_creditedAt := None; p_cardCreated := None;
       p_cardId := None; p_error := None |}.

(** [cardCreated] defaults to [false] in the source; every caller here
    passes it.  [cardId' = None] is the omitted third argument. *)
Definition markDepositAsCredited (now : string) (paymentId' : string)
    (cardCreated' : bool) (cardId' : option string)
    : Store (option PendingDeposit) :=
  updateDepositStatus paymentId' credited
    {| p_id := None; p_paymentId := None; p_walletAddress := None;
       p_amountUsd := None; p_amountCrypto := None; p_currency := None;
       p_depositAddress := None; p_cryptomusUrl := None;
       p_transactionSignature := None;
       p_status := None; p_createdAt := None; p_sentAt := None;
       p_confirmedAt := None;
       p_creditedAt := Some (Some now);
       p_cardCreated := Some (Some cardCreated');
       p_cardId := Some cardId';
       p_error := None |}.

Definition markDepositAsFailed (paymentId' : string) (error' : string)
    : Store (option PendingDeposit) :=
  updateDepositStatus paymentId' failed
    {| p_id := None; p_paymentId := None; p_walletAddress := None;
       p_amountUsd := None; p_amountCrypto := None; p_currency := None;
       p_depositAddress := None; p_cryptomusUrl := None;
       p_transactionSignature := None;
       p_status := None; p_createdAt := None; p_sentAt := None;
       p_confirmedAt := None; p_creditedAt := None; p_cardCreated := None;
       p_cardId := None;
       p_error := Some (Some error') |}.

(** *** The expiry sweep *)

(** [7 * 24 * 60 * 60 * 1000] milliseconds. *)
Definition SEVEN_DAYS : Z := 7 * 24 * 60 * 60 * 1000.

Section Sweep.

(** [new Date(s).getTime()]: the milliseconds since the epoch, or [None]
    for [NaN] when [s] is not a date.  Timestamps are integers well
    inside the range binary64 represents exactly, hence [Z]. *)
Variable Date_getTime : string → option Z.

(** [age > SEVEN_DAYS] with [age = now - new Date(createdAt).getTime()];
    a comparison with [NaN] is false. *)
Definition too_old (now : Z) (deposit : PendingDeposit) : bool :=
  match Date_getTime (createdAt deposit) with
  | Some t => bool_decide (SEVEN_DAYS < now - t)%Z
  | None => false
  end.

(** [deposit.status === 'pending' || deposit.status === 'sent'] *)
Definition awaiting (deposit : PendingDeposit) : bool :=
  match status deposit with pending | sent => true | _ => false end.

(** The [for ... of] loop: it walks the array, assigns
    [deposit.status = 'expired'] in place and counts. *)
Fixpoint sweep (now : Z) (deposits : list PendingDeposit) (expiredCount : nat)
    : list PendingDeposit * nat :=
  match deposits with
  | [] => ([], expiredCount)
  | deposit :: rest =>
      if awaiting deposit then
        if too_old now deposit then
          let (rest', n) := sweep now rest (S expiredCount) in
          (set_status deposit expired :: rest', n)
        else
          let (rest', n) := sweep now rest expiredCount in
          (deposit :: rest', n)
      else
        let (rest', n) := sweep now rest expiredCount in
        (deposit :: rest', n)
  end.

(** [now] is what [Date.now()] returns. *)
Definition cleanupExpiredDeposits (now : Z) : Store nat :=
  deposits ← loadPendingDeposits;
  let (deposits', expiredCount) := sweep now deposits 0 in
  if bool_decide (0 < expiredCount) then
    _ ← savePendingDeposits deposits';
    mret expiredCount
  else mret expiredCount.

End Sweep.

(** *** The summary *)

Record Summary : Type := mkSummary {
  s_total : nat;
  s_pending : nat;
  s_sent : nat;
  s_confirmed : nat;
  s_credited : nat;
  s_failed : nat;
  s_expired : nat;
  s_totalAmountUsd : Js.number
}.

Definition count_status (st : DepositStatus) (deposits : list PendingDeposit) : nat :=
  length (filter (λ d, status d = st) deposits).

Definition getDepositSummary : Store Summary :=
  deposits ← loadPendingDeposits;
  mret {| s_total := length deposits;
          s_pending := count_status pending deposits;
          s_sent := count_status sent deposits;
          s_confirmed := count_status confirmed deposits;
          s_credited := count_status credited deposits;
          s_failed := count_status failed deposits;
          s_expired := count_status expired deposits;
          s_totalAmountUsd :=
            foldl (λ sum d, (sum + amountUsd d)%float) 0%float deposits |}.

(** ** The card-provider webhook: [api/kripicard/webhook] *)

Module KripicardWebhook.

(** What the call to [/api/kripicard/create] comes to: [fetch] or
    [cardResponse.json()] throws, or a reply with [cardResult.success]
    (as a truth value) and [cardResult.cardId]. *)
Inductive CardReply : Type :=
  | CardThrew
  | CardReplied (success : bool) (cardId' : option string).

(** What one request reads from outside the store. *)
Record Env : Type := mkEnv {
  randomUUID : string;
  createdNow : string;
  confirmedNow : string;
  creditedNow : string;
  cardReply : CardReply
}.

Inductive Response : Type :=
  | WebhookProcessed (paymentId' status' : string)
  | ProcessingError
  | DepositFound (deposit : PendingDeposit)
  | DepositNotFound
  | AllDeposits (deposits : list PendingDeposit) (summary : Summary).

Definition http_status (r : Response) : Z :=
  match r with
  | WebhookProcessed _ _ | DepositFound _ | AllDeposits _ _ => 200
  | DepositNotFound => 404
  | ProcessingError => 500
  end.

(** The [success] property of the JSON reply. *)
Definition success (r : Response) : bool :=
  match r with
  | WebhookProcessed _ _ | DepositFound _ | AllDeposits _ _ => true
  | DepositNotFound | ProcessingError => false
  end.

Definition confirms (status' : string) : bool :=
  String.eqb status' "paid" || String.eqb status' "paid_over"
  || String.eqb status' "confirm_check".

Definition fails (status' : string) : bool :=
  String.eqb status' "cancel" || String.eqb status' "fail"
  || String.eqb status' "wrong_amount".

Section Route.

(** The built-in [parseFloat]. *)
Variable parseFloat : string → Js.number.

(** [body] is [JSON.parse(await request.text())], [None] when the
    parse throws.  The handler never reads [sign]. *)
Definition POST (env : Env) (body : option CryptomusWebhook) : Store Response :=
  match body with
  | None => mret ProcessingError
  | Some webhookData =>
      let paymentId' := w_uuid webhookData in
      let status' := w_status webhookData in
      tracked ← getDepositByPaymentId paymentId';
      deposit ← match tracked with
                | Some d => mret d
                | None =>
                    addPendingDeposit (randomUUID env) (createdNow env)
                      {| n_paymentId := paymentId';
                         n_walletAddress := None;
                         n_amountUsd :=
                           Js.or_zero (parseFloat (w_payment_amount_usd webhookData));
                         n_amountCrypto :=
                           Some (w_payment_amount webhookData +:+ " "
                                 +:+ w_currency webhookData);
                         n_currency := w_currency webhookData;
                         n_depositAddress := None; n_cryptomusUrl := None;
                         n_transactionSignature := None; n_sentAt := None;
                         n_confirmedAt := None; n_creditedAt := None;
                         n_cardCreated := None; n_cardId := None;
                         n_error := None |}
                end;
      _ ← (if confirms status' then
             _ ← markDepositAsConfirmed (confirmedNow env) paymentId';
             if negb (Js.truthy_flag (cardCreated deposit)) then
               match cardReply env with
               | CardReplied true cardId' =>
                   _ ← markDepositAsCredited (creditedNow env) paymentId' true cardId';
                   mret ()
               | CardReplied false _ =>
                   _ ← markDepositAsCredited (creditedNow env) paymentId' false None;
                   mret ()
               | CardThrew =>
                   _ ← markDepositAsCredited (creditedNow env) paymentId' false None;
                   mret ()
               end
             else mret ()
           else if fails status' then
             _ ← markDepositAsFailed paymentId' ("Payment " +:+ status');
             mret ()
           else mret ());
      mret (WebhookProcessed paymentId' status')
  end.

End Route.

(** [paymentId'] is [searchParams.get('paymentId')]: [None] when the
    query has no such parameter. *)
Definition GET (paymentId' : option string) : Store Response :=
  if Js.truthy_opt paymentId' then
    deposit ← getDepositByPaymentId (default "" paymentId');
    match deposit with
    | Some d => mret (DepositFound d)
    | None => mret DepositNotFound
    end
  else
    deposits ← loadPendingDeposits;
    summary ← getDepositSummary;
    mret (AllDeposits deposits summary).

End KripicardWebhook.

(** ** The payment-processor webhook: [api/deposit/webhook] *)

Module DepositWebhook.

Inductive Response : Type :=
  | Accepted
  | InvalidSignature
  | ProcessingError.

Definition http_status (r : Response) : Z :=
  match r with
  | Accepted => 200
  | InvalidSignature => 401
  | ProcessingError => 500
  end.

Definition success (r : Response) : bool :=
  match r with Accepted => true | _ => false end.

(** [const { sign: _, ...bodyWithoutSign } = body] *)
Definition bodyWithoutSign (body : CryptomusWebhook) : CryptomusWebhook :=
  {| w_type := w_type body; w_uuid := w_uuid body;
     w_order_id := w_order_id body; w_amount := w_amount body;
     w_payment_amount := w_payment_amount body;
     w_payment_amount_usd := w_payment_amount_usd body;
     w_merchant_amount := w_merchant_amount body;
     w_commission := w_commission body; w_is_final := w_is_final body;
     w_status := w_status body; w_from := w_from body;
     w_wallet_address_uuid := w_wallet_address_uuid body;
     w_network := w_network body; w_currency := w_currency body;
     w_payer_currency := w_payer_currency body;
     w_additional_data := w_additional_data body; w_txid := w_txid body;
     w_sign := None |}.

(** [kv.set('webhook_deposit:' + orderId, deposit)]; a failure of the
    store is caught and logged by the source. *)
Definition saveWebhookDeposit (orderId : string) (deposit : WebhookDeposit)
    : Store unit :=
  λ kv, (tt, {| pending_deposits := pending_deposits kv;
                webhook_deposit := <[orderId := deposit]> (webhook_deposit kv);
                balances := balances kv;
                cards := cards kv |}).

Section Route.

(** [verifyWebhookSignature] and [isPaymentSuccessful] of
    [lib/cryptomus], which is not among the sources: parameters. *)
Variable verifyWebhookSignature : CryptomusWebhook → option string → bool.
Variable isPaymentSuccessful : string → bool.

(** The built-in [parseFloat]. *)
Variable parseFloat : string → Js.number.

(** [JSON.parse(s).wallet] as a string, [None] when the parse or the
    property access throws or the value is falsy. *)
Variable JSON_wallet : string → option string.

(** The credited amount: the fee is 2% + $5. *)
Definition creditAmount (totalPaid : Js.number) : Js.number :=
  let fee := ((totalPaid * 0.02) + 5)%float in
  (totalPaid - fee)%float.

(** [body] is [await request.json()], [None] when it throws; [now] is
    [new Date().toISOString()]. *)
Definition POST (now : string) (body : option CryptomusWebhook) : Store Response :=
  match body with
  | None => mret ProcessingError
  | Some body =>
      let signature := w_sign body in
      if negb (verifyWebhookSignature (bodyWithoutSign body) signature) then
        mret InvalidSignature
      else
        let walletAddress' :=
          if Js.truthy_string (w_additional_data body) then
            default "" (JSON_wallet (w_additional_data body))
          else "" in
        _ ← (if isPaymentSuccessful (w_status body) then
               let totalPaid := parseFloat (w_payment_amount_usd body) in
               saveWebhookDeposit (w_order_id body)
                 {| wd_orderId := w_order_id body;
                    wd_walletAddress := walletAddress';
                    wd_amount := creditAmount totalPaid;
                    wd_status := "paid";
                    wd_paymentId := w_uuid body;
                    wd_paidAt := Some now |}
             else if w_is_final body then
               saveWebhookDeposit (w_order_id body)
                 {| wd_orderId := w_order_id body;
                    wd_walletAddress := walletAddress';
                    wd_amount := 0%float;
                    wd_status := w_status body;
                    wd_paymentId := w_uuid body;
                    wd_paidAt := None |}
             else mret ());
        mret Accepted
  end.

End Route.

End DepositWebhook.

(** ** The balance route: [api/.../balance] *)

Module Balance.

(** The fields the handler destructures from the JSON body; [amount] is
    [None] unless [typeof amount === 'number']. *)
Record Request : Type := mkRequest {
  r_walletAddress : option string;
  r_action : option string;
  r_amount : option Js.number
}.

Inductive Response : Type :=
  | Updated (walletAddress' : string) (data : UserBalance)
  | InvalidParameters
  | InsufficientBalance
  | InvalidAction
  | InternalError.

Definition http_status (r : Response) : Z :=
  match r with
  | Updated _ _ => 200
  | InvalidParameters | InsufficientBalance | InvalidAction => 400
  | InternalError => 500
  end.

Definition success (r : Response) : bool :=
  match r with Updated _ _ => true | _ => false end.

(** [balance || { balance: 0, totalDeposited: 0, totalSpent: 0,
    lastUpdated: new Date().toISOString() }] *)
Definition getBalance (now : string) (walletAddress' : string) : Store UserBalance :=
  λ kv, (default {| balance := 0; totalDeposited := 0; totalSpent := 0;
                    lastUpdated := now |}
                 (balances kv !! walletAddress'), kv).

(** [kv.set('balance:' + walletAddress, balance)].  The record is kept as
    it is written; what the real store gives back is the same for numbers
    that are [Js.json_exact]. *)
Definition saveBalance (walletAddress' : string) (b : UserBalance) : Store unit :=
  λ kv, (tt, {| pending_deposits := pending_deposits kv;
                webhook_deposit := webhook_deposit kv;
                balances := <[walletAddress' := b]> (balances kv);
                cards := cards kv |}).

(** [readNow] and [writeNow] are the two readings of the clock. *)
Definition POST (readNow writeNow : string) (body : option Request) : Store Response :=
  match body with
  | None => mret InternalError
  | Some body =>
      match r_walletAddress body, r_action body, r_amount body with
      | Some walletAddress', Some action, Some amount =>
          if negb (Js.truthy_string walletAddress') || negb (Js.truthy_string action)
          then mret InvalidParameters
          else
            current ← getBalance readNow walletAddress';
            let changed : Response + UserBalance :=
              if String.eqb action "credit" then
                inr {| balance := (balance current + amount)%float;
                       totalDeposited := (totalDeposited current + amount)%float;
                       totalSpent := totalSpent current;
                       lastUpdated := lastUpdated current |}
              else if String.eqb action "debit" then
                if (balance current <? amount)%float then
                  inl InsufficientBalance
                else
                  inr {| balance := (balance current - amount)%float;
                         totalDeposited := totalDeposited current;
                         totalSpent := (totalSpent current + amount)%float;
                         lastUpdated := lastUpdated current |}
              else inl InvalidAction in
            match changed with
            | inl early => mret early
            | inr current =>
                let current :=
                  {| balance := balance current;
                     totalDeposited := totalDeposited current;
                     totalSpent := totalSpent current;
                     lastUpdated := writeNow |} in
                _ ← saveBalance walletAddress' current;
                mret (Updated walletAddress' current)
            end
      | _, _, _ => mret InvalidParameters
      end
  end.

Inductive GetResponse : Type :=
  | BalanceOf (walletAddress' : string) (data : UserBalance)
  | WalletRequired
  | GetError.

Definition get_status (r : GetResponse) : Z :=
  match r with
  | BalanceOf _ _ => 200
  | WalletRequired => 400
  | GetError => 500
  end.

(** [wallet] is [searchParams.get('wallet')]; [now] is the reading of the
    clock [getBalance] makes for a wallet without a record. *)
Definition GET (now : string) (wallet : option string) : Store GetResponse :=
  if negb (Js.truthy_opt wallet) then mret WalletRequired
  else
    let walletAddress' := default "" wallet in
    balance' ← getBalance now walletAddress';
    mret (BalanceOf walletAddress' balance').

End Balance.

(** ** The card store route: [api/cards/store] *)

Module Cards.

(** The fields the handler destructures from the JSON body. *)
Record Request : Type := mkRequest {
  r_cardId : option string;
  r_walletAddress : option string;
  r_lastFour : option string;
  r_balance : option Js.number;
  r_cardNumber : option string;
  r_cvv : option string;
  r_expiry : option string;
  r_cardHolder : option string
}.

Inductive Response : Type :=
  | Stored
  | MissingFields
  | StoreError.

Definition http_status (r : Response) : Z :=
  match r with Stored => 200 | MissingFields => 400 | StoreError => 500 end.

Definition success (r : Response) : bool :=
  match r with Stored => true | _ => false end.

Definition getCards (walletAddress' : string) : Store (list StoredCard) :=
  λ kv, (default [] (cards kv !! walletAddress'), kv).

(** [kv.set('cards:' + walletAddress, cards)].  The list is kept as it is
    written; what the real store gives back is the same for balances that
    are [Js.json_exact]. *)
Definition saveCards (walletAddress' : string) (userCards : list StoredCard)
    : Store unit :=
  λ kv, (tt, {| pending_deposits := pending_deposits kv;
                webhook_deposit := webhook_deposit kv;
                balances := balances kv;
                cards := <[walletAddress' := userCards]> (cards kv) |}).

(** [{ ...card, lastFour, balance, cardNumber, cvv, expiry, cardHolder }]:
    the six shorthand properties are always written, with [undefined]
    for those the request leaves out. *)
Definition updated (card : StoredCard) (body : Request) : StoredCard :=
  {| c_id := c_id card;
     c_cardId := c_cardId card;
     c_walletAddress := c_walletAddress card;
     c_createdAt := c_createdAt card;
     c_lastFour := r_lastFour body;
     c_status := c_status card;
     c_balance := r_balance body;
     c_cardNumber := r_cardNumber body;
     c_cvv := r_cvv body;
     c_expiry := r_expiry body;
     c_cardHolder := r_cardHolder body |}.

Definition newCard (uuid now cardId' walletAddress' : string) (body : Request)
    : StoredCard :=
  {| c_id := uuid;
     c_cardId := cardId';
     c_walletAddress := walletAddress';
     c_createdAt := now;
     c_lastFour := r_lastFour body;
     c_status := active;
     c_balance := r_balance body;
     c_cardNumber := r_cardNumber body;
     c_cvv := r_cvv body;
     c_expiry := r_expiry body;
     c_cardHolder := r_cardHolder body |}.

(** [uuid] is [crypto.randomUUID()] and [now] is
    [new Date().toISOString()]; [body] is [None] when [request.json()]
    throws. *)
Definition POST (uuid now : string) (body : option Request) : Store Response :=
  match body with
  | None => mret StoreError
  | Some body =>
      if negb (Js.truthy_opt (r_cardId body))
         || negb (Js.truthy_opt (r_walletAddress body))
      then mret MissingFields
      else
        let cardId' := default "" (r_cardId body) in
        let walletAddress' := default "" (r_walletAddress body) in
        userCards ← getCards walletAddress';
        let userCards' :=
          match findIndex (λ c, c_cardId c = cardId') userCards with
          | Some existingIndex =>
              match userCards !! existingIndex with
              | Some card => <[existingIndex := updated card body]> userCards
              | None => userCards
              end
          | None => (userCards ++ [newCard uuid now cardId' walletAddress' body])%list
          end in
        _ ← saveCards walletAddress' userCards';
        mret Stored
  end.

Inductive GetResponse : Type :=
  | CardList (userCards : list StoredCard)
  | WalletRequired
  | LoadError.

Definition get_status (r : GetResponse) : Z :=
  match r with
  | CardList _ => 200
  | WalletRequired => 400
  | LoadError => 500
  end.

(** [wallet] is [searchParams.get('walletAddress')]. *)
Definition GET (wallet : option string) : Store GetResponse :=
  if negb (Js.truthy_opt wallet) then mret WalletRequired
  else
    userCards ← getCards (default "" wallet);
    mret (CardList userCards).

End Cards.


(** ** The pending-refunds tracker *)

Module Refunds.

Inductive RefundStatus : Set := pending | detected | credited | expired.

#[global] Instance RefundStatus_eq_dec : EqDecision RefundStatus.
Proof. solve_decision. Defined.

(** [interface PendingRefund] *)
Record PendingRefund : Type := mkPendingRefund {
  id : string;
  walletAddress : string;
  amount : Js.number;
  reason : string;
  kripiCardBalanceBefore : Js.number;
  createdAt : string;
  status : RefundStatus;
  detectedAt : option string;
  creditedAt : option string
}.

(** [Omit<PendingRefund, 'id' | 'createdAt' | 'status'>] *)
Record NewRefund : Type := mkNewRefund {
  n_walletAddress : string;
  n_amount : Js.number;
  n_reason : string;
  n_kripiCardBalanceBefore : Js.number;
  n_detectedAt : option string;
  n_creditedAt : option string
}.

(** [Partial<PendingRefund>] *)
Record PartialRefund : Type := mkPartialRefund {
  p_id : option string;
  p_walletAddress : option string;
  p_amount : option Js.number;
  p_reason : option string;
  p_kripiCardBalanceBefore : option Js.number;
  p_createdAt : option string;
  p_status : option RefundStatus;
  p_detectedAt : option (option string);
  p_creditedAt : option (option string)
}.

(** The tracker owns the key ['pending_refunds'] alone: its state is the
    list under that key, the empty list when the key is missing. *)
Definition Ledger (A : Type) : Type := list PendingRefund → A * list PendingRefund.

#[global] Instance Ledger_ret : MRet Ledger := λ A (a : A) refunds, (a, refunds).
#[global] Instance Ledger_bind : MBind Ledger :=
  λ A B (k : A → Ledger B) (m : Ledger A) refunds,
    let (a, refunds') := m refunds in k a refunds'.

Definition loadPendingRefunds : Ledger (list PendingRefund) :=
  λ refunds, (refunds, refunds).

Definition savePendingRefunds (refunds : list PendingRefund) : Ledger unit :=
  λ _, (tt, refunds).

(** [{ ...r, ...additionalData, status }] *)
Definition spread (r : PendingRefund) (additionalData : PartialRefund)
    (st : RefundStatus) : PendingRefund :=
  {| id := default (id r) (p_id additionalData);
     walletAddress := default (walletAddress r) (p_walletAddress additionalData);
     amount := default (amount r) (p_amount additionalData);
     reason := default (reason r) (p_reason additionalData);
     kripiCardBalanceBefore :=
       default (kripiCardBalanceBefore r) (p_kripiCardBalanceBefore additionalData);
     createdAt := default (createdAt r) (p_createdAt additionalData);
     status := st;
     detectedAt := default (detectedAt r) (p_detectedAt additionalData);
     creditedAt := default (creditedAt r) (p_creditedAt additionalData) |}.

(** [refund.status = st] *)
Definition set_status (r : PendingRefund) (st : RefundStatus) : PendingRefund :=
  {| id := id r; walletAddress := walletAddress r; amount := amount r;
     reason := reason r; kripiCardBalanceBefore := kripiCardBalanceBefore r;
     createdAt := createdAt r; status := st;
     detectedAt := detectedAt r; creditedAt := creditedAt r |}.

Definition addPendingRefund (uuid now : string) (refund : NewRefund)
    : Ledger PendingRefund :=
  refunds ← loadPendingRefunds;
  let newRefund :=
    {| id := uuid;
       walletAddress := n_walletAddress refund;
       amount := n_amount refund;
       reason := n_reason refund;
       kripiCardBalanceBefore := n_kripiCardBalanceBefore refund;
       createdAt := now;
       status := pending;
       detectedAt := n_detectedAt refund;
       creditedAt := n_creditedAt refund |} in
  _ ← savePendingRefunds (refunds ++ [newRefund])%list;
  mret newRefund.

Definition updateRefundStatus (refundId : string) (st : RefundStatus)
    (additionalData : PartialRefund) : Ledger unit :=
  refunds ← loadPendingRefunds;
  match findIndex (λ r, id r = refundId) refunds with
  | Some index =>
      match refunds !! index with
      | Some r => savePendingRefunds (<[index := spread r additionalData st]> refunds)
      | None => mret ()
      end
  | None => mret ()
  end.

Definition getPendingRefundsForWallet (walletAddress' : string)
    : Ledger (list PendingRefund) :=
  refunds ← loadPendingRefunds;
  mret (filter (λ r, walletAddress r = walletAddress' ∧ status r = pending) refunds).

Definition getAllPendingRefunds : Ledger (list PendingRefund) :=
  refunds ← loadPendingRefunds;
  mret (filter (λ r, status r = pending) refunds).

(** [24 * 60 * 60 * 1000] milliseconds. *)
Definition ONE_DAY : Z := 24 * 60 * 60 * 1000.

Section Sweep.

(** [new Date(s).getTime()], [None] for [NaN]. *)
Variable Date_getTime : string → option Z.

(** [age > ONE_DAY] with [age = now - new Date(createdAt).getTime()]. *)
Definition too_old (now : Z) (refund : PendingRefund) : bool :=
  match Date_getTime (createdAt refund) with
  | Some t => bool_decide (ONE_DAY < now - t)%Z
  | None => false
  end.

(** The [for ... of] loop with its [changed] flag. *)
Fixpoint sweep (now : Z) (refunds : list PendingRefund) (changed : bool)
    : list PendingRefund * bool :=
  match refunds with
  | [] => ([], changed)
  | refund :: rest =>
      if decide (status refund = pending) then
        if too_old now refund then
          let (rest', changed') := sweep now rest true in
          (set_status refund expired :: rest', changed')
        else
          let (rest', changed') := sweep now rest changed in
          (refund :: rest', changed')
      else
        let (rest', changed') := sweep now rest changed in
        (refund :: rest', changed')
  end.

Definition cleanupExpiredRefunds (now : Z) : Ledger unit :=
  refunds ← loadPendingRefunds;
  let (refunds', changed) := sweep now refunds false in
  if changed then savePendingRefunds refunds' else mret ().

End Sweep.

End Refunds.

(** ** Notions the properties are stated with *)

(** [kv] with the deposit ledger replaced. *)
Definition with_deposits (kv : KV) (deposits : list PendingDeposit) : KV :=
  {| pending_deposits := deposits;
     webhook_deposit := webhook_deposit kv;
     balances := balances kv;
     cards := cards kv |}.

(** [kv] with the balance record of [wallet] replaced. *)
Definition with_balance (kv : KV) (wallet : string) (b : UserBalance) : KV :=
  {| pending_deposits := pending_deposits kv;
     webhook_deposit := webhook_deposit kv;
     balances := <[wallet := b]> (balances kv);
     cards := cards kv |}.

(** [kv] with the card list of [wallet] replaced. *)
Definition with_cards (kv : KV) (wallet : string) (userCards : list StoredCard) : KV :=
  {| pending_deposits := pending_deposits kv;
     webhook_deposit := webhook_deposit kv;
     balances := balances kv;
     cards := <[wallet := userCards]> (cards kv) |}.

(** The transition table as the specification words it:
    pending → sent → confirmed → credited, or to failed or expired from a
    state that is not terminal. *)
Definition terminal (st : DepositStatus) : bool :=
  match st with credited | failed | expired => true | _ => false end.

Inductive transition : DepositStatus → DepositStatus → Prop :=
  | to_sent : transition pending sent
  | to_confirmed : transition sent confirmed
  | to_credited : transition confirmed credited
  | to_failed st : terminal st = false → transition st failed
  | to_expired st : terminal st = false → transition st expired.

(** The same table as a decision procedure. *)
Definition transitionb (old new : DepositStatus) : bool :=
  match old, new with
  | pending, sent | sent, confirmed | confirmed, credited => true
  | _, failed | _, expired => negb (terminal old)
  | _, _ => false
  end.

(** The status-mutating operations of the tracker, as commands. *)
Inductive StatusOp : Type :=
  | UpdateStatus (paymentId' : string) (st : DepositStatus)
                 (additionalData : PartialDeposit)
  | MarkSent (now paymentId' transactionSignature' : string)
  | MarkConfirmed (now paymentId' : string)
  | MarkCredited (now paymentId' : string) (cardCreated' : bool)
                 (cardId' : option string)
  | MarkFailed (paymentId' error' : string)
  | Cleanup (now : Z).

Definition perform (Date_getTime : string → option Z) (op : StatusOp) : Store unit :=
  match op with
  | UpdateStatus p st extra => _ ← updateDepositStatus p st extra; mret ()
  | MarkSent now p sig => _ ← markDepositAsSent now p sig; mret ()
  | MarkConfirmed now p => _ ← markDepositAsConfirmed now p; mret ()
  | MarkCredited now p created cid =>
      _ ← markDepositAsCredited now p created cid; mret ()
  | MarkFailed p err => _ ← markDepositAsFailed p err; mret ()
  | Cleanup now => _ ← cleanupExpiredDeposits Date_getTime now; mret ()
  end.

(** The payment id an operation addresses and the status it asks for;
    the sweep addresses none. *)
Definition request_of (op : StatusOp) : option (string * DepositStatus) :=
  match op with
  | UpdateStatus p st _ => Some (p, st)
  | MarkSent _ p _ => Some (p, sent)
  | MarkConfirmed _ p => Some (p, confirmed)
  | MarkCredited _ p _ _ => Some (p, credited)
  | MarkFailed p _ => Some (p, failed)
  | Cleanup _ => None
  end.

(** What one operation may do to the status of one record: leave it, or
    overwrite it with the status asked for when the record has the
    payment id addressed, or (the sweep) expire a pending or sent one. *)
Definition status_effect (op : StatusOp) (d d' : PendingDeposit) : Prop :=
  status d' = status d
  ∨ request_of op = Some (paymentId d, status d')
  ∨ (request_of op = None ∧ (status d = pending ∨ status d = sent)
     ∧ status d' = expired).

(** The ledger invariant: no two records share a payment id. *)
Definition unique_paymentIds (kv : KV) : Prop :=
  NoDup (paymentId <$> pending_deposits kv).

(** The sweep expires [d]: it is pending or sent, and too old. *)
Definition stale (Date_getTime : string → option Z) (now : Z)
    (d : PendingDeposit) : bool :=
  awaiting d && too_old Date_getTime now d.

(** The record the sweep leaves in the place of [d]. *)
Definition swept (Date_getTime : string → option Z) (now : Z)
    (d : PendingDeposit) : PendingDeposit :=
  if stale Date_getTime now d then set_status d expired else d.

(** A handler started in a store that satisfies [P] ends with a result
    and a store that satisfy [Q]. *)
Definition hoare {A} (P : KV → Prop) (m : Store A) (Q : A → KV → Prop) : Prop :=
  ∀ kv, P kv → Q (result m kv) (after m kv).

(** [d] is the record the ledger of [kv] holds for [paymentId']: the
    first with that payment id. *)
Definition tracks (paymentId' : string) (d : PendingDeposit) (kv : KV) : Prop :=
  find (λ d, paymentId d = paymentId') (pending_deposits kv) = Some d.

(** The payload [body] with the [sign] property set to [sign]. *)
Definition with_sign (body : CryptomusWebhook) (sign : option string)
    : CryptomusWebhook :=
  {| w_type := w_type body; w_uuid := w_uuid body;
     w_order_id := w_order_id body; w_amount := w_amount body;
     w_payment_amount := w_payment_amount body;
     w_payment_amount_usd := w_payment_amount_usd body;
     w_merchant_amount := w_merchant_amount body;
     w_commission := w_commission body; w_is_final := w_is_final body;
     w_status := w_status body; w_from := w_from body;
     w_wallet_address_uuid := w_wallet_address_uuid body;
     w_network := w_network body; w_currency := w_currency body;
     w_payer_currency := w_payer_currency body;
     w_additional_data := w_additional_data body; w_txid := w_txid body;
     w_sign := sign |}.

(** The fields of a deposit that say which payment it is: the marking
    helpers and the sweep are not to touch them. *)
Definition same_payment (d d' : PendingDeposit) : Prop :=
  id d' = id d ∧ paymentId d' = paymentId d
  ∧ walletAddress d' = walletAddress d ∧ amountUsd d' = amountUsd d
  ∧ amountCrypto d' = amountCrypto d ∧ currency d' = currency d
  ∧ depositAddress d' = depositAddress d ∧ cryptomusUrl d' = cryptomusUrl d
  ∧ createdAt d' = createdAt d.

(** No two cards of the wallet share a card id. *)
Definition unique_cardIds (kv : KV) (wallet : string) : Prop :=
  NoDup (c_cardId <$> default [] (cards kv !! wallet)).

(** The handler leaves the parts of the store it does not own alone. *)
Definition same_but_deposits (kv kv' : KV) : Prop :=
  webhook_deposit kv' = webhook_deposit kv
  ∧ balances kv' = balances kv ∧ cards kv' = cards kv.

(** The record the card-provider webhook adds for a payment it does not
    track yet. *)
Definition first_seen (parseFloat : string → Js.number)
    (env : KripicardWebhook.Env) (hook : CryptomusWebhook) : PendingDeposit :=
  {| id := KripicardWebhook.randomUUID env;
     paymentId := w_uuid hook;
     walletAddress := None;
     amountUsd := Js.or_zero (parseFloat (w_payment_amount_usd hook));
     amountCrypto := Some (w_payment_amount hook +:+ " " +:+ w_currency hook);
     currency := w_currency hook;
     depositAddress := None; cryptomusUrl := None;
     transactionSignature := None;
     status := pending;
     createdAt := KripicardWebhook.createdNow env;
     sentAt := None; confirmedAt := None; creditedAt := None;
     cardCreated := None; cardId := None; error := None |}.

(** The two halves of the card-provider POST handler, for a payload it
    could parse: the deposit the payload is about, tracked already or
    added now; then the update its status asks for. *)
Definition observed (parseFloat : string → Js.number)
    (env : KripicardWebhook.Env) (hook : CryptomusWebhook)
    : Store PendingDeposit :=
  tracked ← getDepositByPaymentId (w_uuid hook);
  match tracked with
  | Some d => mret d
  | None =>
      addPendingDeposit (KripicardWebhook.randomUUID env)
        (KripicardWebhook.createdNow env)
        {| n_paymentId := w_uuid hook;
           n_walletAddress := None;
           n_amountUsd := Js.or_zero (parseFloat (w_payment_amount_usd hook));
           n_amountCrypto :=
             Some (w_payment_amount hook +:+ " " +:+ w_currency hook);
           n_currency := w_currency hook;
           n_depositAddress := None; n_cryptomusUrl := None;
           n_transactionSignature := None; n_sentAt := None;
           n_confirmedAt := None; n_creditedAt := None;
           n_cardCreated := None; n_cardId := None;
           n_error := None |}
  end.

Definition settled (env : KripicardWebhook.Env) (hook : CryptomusWebhook)
    (deposit : PendingDeposit) : Store unit :=
  if KripicardWebhook.confirms (w_status hook) then
    _ ← markDepositAsConfirmed (KripicardWebhook.confirmedNow env) (w_uuid hook);
    if negb (Js.truthy_flag (cardCreated deposit)) then
      match KripicardWebhook.cardReply env with
      | KripicardWebhook.CardReplied true cardId' =>
          _ ← markDepositAsCredited (KripicardWebhook.creditedNow env)
                (w_uuid hook) true cardId';
          mret ()
      | KripicardWebhook.CardReplied false _ =>
          _ ← markDepositAsCredited (KripicardWebhook.creditedNow env)
                (w_uuid hook) false None;
          mret ()
      | KripicardWebhook.CardThrew =>
          _ ← markDepositAsCredited (KripicardWebhook.creditedNow env)
                (w_uuid hook) false None;
          mret ()
      end
    else mret ()
  else if KripicardWebhook.fails (w_status hook) then
    _ ← markDepositAsFailed (w_uuid hook) ("Payment " +:+ w_status hook);
    mret ()
  else mret ().

(** The refund sweep expires [r]: it is pending, and more than a day
    old. *)
Definition refund_stale (Date_getTime : string → option Z) (now : Z)
    (r : Refunds.PendingRefund) : bool :=
  bool_decide (Refunds.status r = Refunds.pending)
  && Refunds.too_old Date_getTime now r.

(** The record the refund sweep leaves in the place of [r]. *)
Definition refund_swept (Date_getTime : string → option Z) (now : Z)
    (r : Refunds.PendingRefund) : Refunds.PendingRefund :=
  if refund_stale Date_getTime now r
  then Refunds.set_status r Refunds.expired else r.

(** The three numbers of a balance record survive the store. *)
Definition storable (b : UserBalance) : bool :=
  Js.json_exact (balance b) && Js.json_exact (totalDeposited b)
  && Js.json_exact (totalSpent b).

(** What a [markDepositAs*] helper writes besides the status, and what it
    keeps, of the fields that do not say which payment the record is. *)
Definition marked (op : StatusOp) (d d' : PendingDeposit) : Prop :=
  match op with
  | MarkSent now _ sig =>
      transactionSignature d' = Some sig ∧ sentAt d' = Some now
      ∧ confirmedAt d' = confirmedAt d ∧ creditedAt d' = creditedAt d
      ∧ cardCreated d' = cardCreated d ∧ cardId d' = cardId d
      ∧ error d' = error d
  | MarkConfirmed now _ =>
      confirmedAt d' = Some now
      ∧ transactionSignature d' = transactionSignature d
      ∧ sentAt d' = sentAt d ∧ creditedAt d' = creditedAt d
      ∧ cardCreated d' = cardCreated d ∧ cardId d' = cardId d
      ∧ error d' = error d
  | MarkCredited now _ created cid =>
      creditedAt d' = Some now ∧ cardCreated d' = Some created
      ∧ cardId d' = cid
      ∧ transactionSignature d' = transactionSignature d
      ∧ sentAt d' = sentAt d ∧ confirmedAt d' = confirmedAt d
      ∧ error d' = error d
  | MarkFailed _ err =>
      error d' = Some err
      ∧ transactionSignature d' = transactionSignature d
      ∧ sentAt d' = sentAt d ∧ confirmedAt d' = confirmedAt d
      ∧ creditedAt d' = creditedAt d
      ∧ cardCreated d' = cardCreated d ∧ cardId d' = cardId d
  | UpdateStatus _ _ _ | Cleanup _ => True
  end.

(** [ds'] is [ds] with the first record of payment id [pid], if there is
    one, replaced at its place by a record [Q] relates it to, and nothing
    else changed. *)
Definition overwritten_at (pid : string)
    (Q : PendingDeposit → PendingDeposit → Prop)
    (ds ds' : list PendingDeposit) : Prop :=
  match list_find (λ d, paymentId d = pid) ds with
  | Some (i, d) =>
      (∃ d', ds' !! i = Some d' ∧ Q d d')
      ∧ ∀ j, j ≠ i → ds' !! j = ds !! j
  | None => ds' = ds
  end.

(** ** Sample inputs *)

(** A payload of the processor for payment [pay-1], order [order-1], of
    100 USD. *)
Definition sample_hook (status' : string) (sign : option string) : CryptomusWebhook :=
  {| w_type := "payment"; w_uuid := "pay-1"; w_order_id := "order-1";
     w_amount := "100"; w_payment_amount := "0.5";
     w_payment_amount_usd := "100"; w_merchant_amount := "98";
     w_commission := "2"; w_is_final := true; w_status := status';
     w_from := ""; w_wallet_address_uuid := ""; w_network := "sol";
     w_currency := "SOL"; w_payer_currency := "SOL";
     w_additional_data := ""; w_txid := "tx-1"; w_sign := sign |}.

(** [parseFloat] on the one amount the samples use. *)
Definition sample_parseFloat (s : string) : Js.number :=
  if String.eqb s "100" then 100%float else nan.

(** [new Date(s).getTime()] on the dates the samples use. *)
Definition sample_getTime (s : string) : option Z :=
  if String.eqb s "2024-01-01T00:00:00.000Z" then Some 1704067200000%Z
  else if String.eqb s "2024-01-03T00:00:00.000Z" then Some 1704240000000%Z
  else None.

(** [Date.now()] at 2024-01-09T00:00:00.000Z. *)
Definition sample_now : Z := 1704758400000.

Definition sample_new_deposit (paymentId' : string) : NewDeposit :=
  {| n_paymentId := paymentId'; n_walletAddress := Some "wallet-1";
     n_amountUsd := 100%float; n_amountCrypto := None; n_currency := "SOL";
     n_depositAddress := None; n_cryptomusUrl := None;
     n_transactionSignature := None; n_sentAt := None;
     n_confirmedAt := None; n_creditedAt := None; n_cardCreated := None;
     n_cardId := None; n_error := None |}.

Definition sample_env (reply : KripicardWebhook.CardReply) : KripicardWebhook.Env :=
  {| KripicardWebhook.randomUUID := "id-1";
     KripicardWebhook.createdNow := "2024-01-01T00:00:00.000Z";
     KripicardWebhook.confirmedNow := "2024-01-01T00:00:01.000Z";
     KripicardWebhook.creditedNow := "2024-01-01T00:00:02.000Z";
     KripicardWebhook.cardReply := reply |}.

Definition balance_request (action : string) (amount : Js.number)
    : option Balance.Request :=
  Some {| Balance.r_walletAddress := Some "wallet-1";
          Balance.r_action := Some action;
          Balance.r_amount := Some amount |}.

Definition card_request (lastFour : option string) (balance' : option Js.number)
    : option Cards.Request :=
  Some {| Cards.r_cardId := Some "card-1";
          Cards.r_walletAddress := Some "wallet-1";
          Cards.r_lastFour := lastFour;
          Cards.r_balance := balance';
          Cards.r_cardNumber := None; Cards.r_cvv := None;
          Cards.r_expiry := None; Cards.r_cardHolder := None |}.

(** A ledger that tracks [pay-1], created on 2024-01-01. *)
Definition sample_ledger : KV :=
  after (addPendingDeposit "id-1" "2024-01-01T00:00:00.000Z"
           (sample_new_deposit "pay-1")) kv_empty.

(** The same with [pay-2], created on 2024-01-03, after it. *)
Definition two_ledger : KV :=
  after (addPendingDeposit "id-2" "2024-01-03T00:00:00.000Z"
           (sample_new_deposit "pay-2")) sample_ledger.

(** The additional data [{ paymentId }]. *)
Definition only_paymentId (paymentId' : string) : PartialDeposit :=
  {| p_id := None; p_paymentId := Some paymentId'; p_walletAddress := None;
     p_amountUsd := None; p_amountCrypto := None; p_currency := None;
     p_depositAddress := None; p_cryptomusUrl := None;
     p_transactionSignature := None; p_status := None; p_createdAt := None;
     p_sentAt := None; p_confirmedAt := None; p_creditedAt := None;
     p_cardCreated := None; p_cardId := None; p_error := None |}.

(** [pay-1] taken through sent and confirmed to credited. *)
Definition credited_ledger : KV :=
  after (_ ← markDepositAsSent "2024-01-01T00:01:00.000Z" "pay-1" "sig-1";
         _ ← markDepositAsConfirmed "2024-01-01T00:02:00.000Z" "pay-1";
         markDepositAsCredited "2024-01-01T00:03:00.000Z" "pay-1" true
           (Some "card-1"))
        sample_ledger.


(** A request to store card [card-1] of [wallet-1] with all six fields. *)
Definition full_card_request : Cards.Request :=
  {| Cards.r_cardId := Some "card-1";
     Cards.r_walletAddress := Some "wallet-1";
     Cards.r_lastFour := Some "4242";
     Cards.r_balance := Some 25%float;
     Cards.r_cardNumber := Some "4000000000004242";
     Cards.r_cvv := Some "123";
     Cards.r_expiry := Some "12/27";
     Cards.r_cardHolder := Some "A HOLDER" |}.

(** A refund of 25 USD expected by [wallet-1]. *)
Definition sample_new_refund : Refunds.NewRefund :=
  {| Refunds.n_walletAddress := "wallet-1";
     Refunds.n_amount := 25%float;
     Refunds.n_reason := "card creation failed";
     Refunds.n_kripiCardBalanceBefore := 40%float;
     Refunds.n_detectedAt := None;
     Refunds.n_creditedAt := None |}.

(** The refund ledger after that refund is added on 2024-01-01. *)
Definition sample_refunds : list Refunds.PendingRefund :=
  snd (Refunds.addPendingRefund "refund-1" "2024-01-01T00:00:00.000Z"
         sample_new_refund []).

(** * Properties *)

(** ** Numbers that survive the store *)

(** [-0], the infinities and [NaN] do not survive JSON; other numbers do. *)
Lemma json_exact_edges :
  (Js.json_exact (-0)%float, Js.json_exact infinity, Js.json_exact neg_infinity,
   Js.json_exact nan, Js.json_exact (1e308 + 1e308)%float)
  = (false, false, false, false, false)
  ∧ (Js.json_exact 0%float, Js.json_exact 0.1%float, Js.json_exact (-5)%float)
    = (true, true, true).
Proof. by split. Qed.

(** ** The monad and the lookups *)

Ltac unfold_store :=
  unfold result, after, run, mbind, mret, Store_bind, Store_ret,
    loadPendingDeposits, savePendingDeposits in *.

Lemma with_deposits_same kv : with_deposits kv (pending_deposits kv) = kv.
Proof. by destruct kv. Qed.

Lemma find_None {A} (P : A → Prop) `{∀ x, Decision (P x)} (l : list A) :
  find P l = None ↔ Forall (λ x, ¬ P x) l.
Proof.
  unfold find. rewrite fmap_None. apply list_find_None.
Qed.

Lemma find_Some {A} (P : A → Prop) `{∀ x, Decision (P x)} (l : list A) x :
  find P l = Some x ↔ ∃ i, list_find P l = Some (i, x).
Proof.
  unfold find. rewrite fmap_Some. split.
  - intros [[i y] [Hf ->]]. by exists i.
  - intros [i Hf]. by exists (i, x).
Qed.

(** Overwriting the element found by one that still satisfies the
    predicate leaves it the first match. *)
Lemma list_find_overwrite {A} (P : A → Prop) `{∀ x, Decision (P x)}
    (l : list A) i x y :
  list_find P l = Some (i, x) → P y → list_find P (<[i := y]> l) = Some (i, y).
Proof.
  intros (Hl & HP & Hleast)%list_find_Some Hy.
  apply list_find_insert_Some. right; left.
  split_and!; eauto using lookup_lt_Some.
Qed.

(** Appending a match to a list without any makes it the match. *)
Lemma list_find_snoc {A} (P : A → Prop) `{∀ x, Decision (P x)}
    (l : list A) x :
  list_find P l = None → P x → list_find P (l ++ [x]) = Some (length l, x).
Proof.
  intros Hnone Hx. rewrite list_find_app_r by done.
  simpl. by rewrite decide_True.
Qed.

(** ** [updateDepositStatus] *)

Lemma updateDepositStatus_found pid st extra kv i d :
  list_find (λ d, paymentId d = pid) (pending_deposits kv) = Some (i, d) →
  run (updateDepositStatus pid st extra) kv =
    (Some (spread d extra st),
     with_deposits kv (<[i := spread d extra st]> (pending_deposits kv))).
Proof.
  intros Hf. unfold updateDepositStatus, findIndex. unfold_store.
  rewrite Hf. cbn.
  apply list_find_Some in Hf as (Hl & _). by rewrite Hl.
Qed.

Lemma updateDepositStatus_missing pid st extra kv :
  list_find (λ d, paymentId d = pid) (pending_deposits kv) = None →
  run (updateDepositStatus pid st extra) kv = (None, kv).
Proof.
  intros Hf. unfold updateDepositStatus, findIndex. unfold_store.
  by rewrite Hf.
Qed.

(** The record addressed is overwritten in place; every other field of
    the store and every other record is as before. *)
Lemma updateDepositStatus_effect pid st extra kv :
  Forall2 (λ d d', d' = d ∨ paymentId d = pid ∧ d' = spread d extra st)
    (pending_deposits kv)
    (pending_deposits (after (updateDepositStatus pid st extra) kv)).
Proof.
  unfold after.
  destruct (list_find (λ d, paymentId d = pid) (pending_deposits kv))
    as [[i d]|] eqn:Hf.
  - rewrite (updateDepositStatus_found _ _ _ _ _ _ Hf). cbn.
    apply list_find_Some in Hf as (Hl & Hp & _).
    rewrite <- (list_insert_id _ _ _ Hl) at 1.
    apply Forall2_insert; [|by right].
    apply Forall_Forall2_diag, Forall_forall. by left.
  - rewrite (updateDepositStatus_missing _ _ _ _ Hf). cbn.
    apply Forall_Forall2_diag, Forall_forall. by left.
Qed.

Lemma updateDepositStatus_paymentIds pid st extra kv :
  p_paymentId extra = None →
  paymentId <$> pending_deposits (after (updateDepositStatus pid st extra) kv)
  = paymentId <$> pending_deposits kv.
Proof.
  intros Hextra. unfold after.
  destruct (list_find (λ d, paymentId d = pid) (pending_deposits kv))
    as [[i d]|] eqn:Hf.
  - rewrite (updateDepositStatus_found _ _ _ _ _ _ Hf). cbn.
    apply list_find_Some in Hf as (Hl & _).
    rewrite list_fmap_insert. cbn. rewrite Hextra. cbn.
    apply list_insert_id. by rewrite list_lookup_fmap, Hl.
  - by rewrite (updateDepositStatus_missing _ _ _ _ Hf).
Qed.

(** ** The expiry sweep *)

Section SweepProperties.

Variable Date_getTime : string → option Z.

Lemma sweep_spec now deposits expiredCount :
  sweep Date_getTime now deposits expiredCount =
    (swept Date_getTime now <$> deposits,
     expiredCount + length (filter (λ d, stale Date_getTime now d = true) deposits)).
Proof.
  revert expiredCount.
  induction deposits as [|d rest IH]; intros n; cbn [sweep fmap list_fmap].
  - cbn. f_equal. lia.
  - unfold swept at 1.
    destruct (stale Date_getTime now d) eqn:Hst.
    + rewrite filter_cons_True by done.
      apply andb_true_iff in Hst as [-> ->].
      rewrite IH. cbn. f_equal. lia.
    + rewrite filter_cons_False by (by rewrite Hst).
      unfold stale in Hst.
      destruct (awaiting d); cbn in Hst; [rewrite Hst|]; by rewrite IH.
Qed.

Lemma swept_nothing now deposits :
  length (filter (λ d, stale Date_getTime now d = true) deposits) = 0 →
  swept Date_getTime now <$> deposits = deposits.
Proof.
  induction deposits as [|d rest IH]; [done|].
  cbn [fmap list_fmap]. unfold swept at 1.
  destruct (stale Date_getTime now d) eqn:Hst.
  - rewrite filter_cons_True by done. cbn. lia.
  - rewrite filter_cons_False by (by rewrite Hst).
    intros ?. f_equal. auto.
Qed.

Lemma cleanupExpiredDeposits_run now kv :
  run (cleanupExpiredDeposits Date_getTime now) kv =
    (length (filter (λ d, stale Date_getTime now d = true) (pending_deposits kv)),
     with_deposits kv (swept Date_getTime now <$> pending_deposits kv)).
Proof.
  unfold cleanupExpiredDeposits. unfold_store.
  rewrite sweep_spec. cbn.
  case_bool_decide as Hn; cbn; [done|].
  rewrite swept_nothing by lia.
  by rewrite with_deposits_same.
Qed.

End SweepProperties.

Lemma set_status_other_fields d st :
  let d' := set_status d st in
  id d' = id d ∧ paymentId d' = paymentId d
  ∧ walletAddress d' = walletAddress d ∧ amountUsd d' = amountUsd d
  ∧ amountCrypto d' = amountCrypto d ∧ currency d' = currency d
  ∧ depositAddress d' = depositAddress d ∧ cryptomusUrl d' = cryptomusUrl d
  ∧ transactionSignature d' = transactionSignature d
  ∧ createdAt d' = createdAt d ∧ sentAt d' = sentAt d
  ∧ confirmedAt d' = confirmedAt d ∧ creditedAt d' = creditedAt d
  ∧ cardCreated d' = cardCreated d ∧ cardId d' = cardId d
  ∧ error d' = error d.
Proof. cbn. by repeat split. Qed.

Section SweepTheorems.

Variable Date_getTime : string → option Z.

Lemma stale_iff now d :
  stale Date_getTime now d = true ↔
    (status d = pending ∨ status d = sent)
    ∧ ∃ t, Date_getTime (createdAt d) = Some t ∧ (SEVEN_DAYS < now - t)%Z.
Proof.
  unfold stale, awaiting, too_old. rewrite andb_true_iff. split.
  - intros [Hst Hold]. split; [destruct (status d); auto; discriminate|].
    destruct (Date_getTime (createdAt d)) as [t|]; [|discriminate].
    exists t. split; [done|]. by apply bool_decide_eq_true in Hold.
  - intros [Hst (t & -> & Ht)]. split.
    + by destruct Hst as [-> | ->].
    + by apply bool_decide_eq_true.
Qed.

Lemma count_expired_swept now deposits :
  count_status expired (swept Date_getTime now <$> deposits) =
    count_status expired deposits
    + length (filter (λ d, stale Date_getTime now d = true) deposits).
Proof.
  unfold count_status.
  induction deposits as [|d rest IH]; [done|].
  cbn [fmap list_fmap]. unfold swept at 1.
  destruct (stale Date_getTime now d) eqn:Hst.
  - rewrite (filter_cons_True (λ d, stale Date_getTime now d = true)) by done.
    rewrite filter_cons_True by done.
    apply stale_iff in Hst as [Hst _].
    rewrite (filter_cons_False _ d) by (destruct Hst as [-> | ->]; done).
    cbn. rewrite IH. lia.
  - rewrite (filter_cons_False (λ d, stale Date_getTime now d = true))
      by (by rewrite Hst).
    destruct (decide (status d = expired)).
    + rewrite !filter_cons_True by done. cbn. by rewrite IH.
    + by rewrite !filter_cons_False by done.
Qed.

(** The sweep keeps a record or expires a pending or sent one. *)
Lemma cleanup_effect now kv :
  Forall2 (λ d d', d' = d
                   ∨ (status d = pending ∨ status d = sent)
                     ∧ d' = set_status d expired)
    (pending_deposits kv)
    (pending_deposits (after (cleanupExpiredDeposits Date_getTime now) kv)).
Proof.
  unfold after. rewrite cleanupExpiredDeposits_run. cbn.
  apply Forall2_fmap_r, Forall_Forall2_diag, Forall_forall.
  intros d _. unfold compose, swept.
  destruct (stale Date_getTime now d) eqn:Hst; [|by left].
  right. by apply stale_iff in Hst as [? _].
Qed.

(** C9. The expiry sweep expires every pending or sent deposit created
    more than seven days before the current time, leaves every deposit
    created within seven days (and every deposit in another status) as it
    is, changes nothing but the status of the records it expires (and
    nothing else in the store), and returns the number of records it
    expired. *)
Theorem expiry_sweep now kv :
  let n := result (cleanupExpiredDeposits Date_getTime now) kv in
  let kv' := after (cleanupExpiredDeposits Date_getTime now) kv in
  (∀ i d t, pending_deposits kv !! i = Some d →
     status d = pending ∨ status d = sent →
     Date_getTime (createdAt d) = Some t → (SEVEN_DAYS < now - t)%Z →
     pending_deposits kv' !! i = Some (set_status d expired))
  ∧ (∀ i d t, pending_deposits kv !! i = Some d →
       Date_getTime (createdAt d) = Some t → (now - t ≤ SEVEN_DAYS)%Z →
       pending_deposits kv' !! i = Some d)
  ∧ Forall2 (λ d d', d' = d
                     ∨ (status d = pending ∨ status d = sent)
                       ∧ d' = set_status d expired)
      (pending_deposits kv) (pending_deposits kv')
  ∧ count_status expired (pending_deposits kv')
    = count_status expired (pending_deposits kv) + n
  ∧ kv' = with_deposits kv (pending_deposits kv').
Proof.
  unfold result, after. rewrite cleanupExpiredDeposits_run. cbn.
  split_and!.
  - intros i d t Hd Hst Ht Hold. rewrite list_lookup_fmap, Hd. cbn.
    unfold swept. rewrite (proj2 (stale_iff now d)); eauto.
  - intros i d t Hd Ht Hyoung. rewrite list_lookup_fmap, Hd. cbn.
    unfold swept. destruct (stale Date_getTime now d) eqn:Hst; [|done].
    apply stale_iff in Hst as [_ (t' & Ht' & Hold)].
    assert (t' = t) as -> by congruence. lia.
  - pose proof (cleanup_effect now kv) as Hall.
    unfold after in Hall. by rewrite cleanupExpiredDeposits_run in Hall.
  - apply count_expired_swept.
  - done.
Qed.

End SweepTheorems.

(** The example of the specification: with the sweep run on
    2024-01-09, the deposit created eight days before is expired and the
    one created six days before is untouched. *)
Lemma expiry_sweep_example :
  let kv' := after (cleanupExpiredDeposits sample_getTime sample_now) two_ledger in
  status <$> pending_deposits two_ledger = [pending; pending]
  ∧ status <$> pending_deposits kv' !! 0 = Some expired
  ∧ pending_deposits kv' !! 1 = pending_deposits two_ledger !! 1.
Proof.
  destruct (expiry_sweep sample_getTime sample_now two_ledger)
    as (Hold & Hyoung & _).
  cbv zeta. split; [reflexivity|]. split.
  - erewrite (Hold 0 _ 1704067200000%Z); [reflexivity|reflexivity|by left|reflexivity|].
    unfold sample_now, SEVEN_DAYS. lia.
  - erewrite (Hyoung 1 _ 1704240000000%Z); [reflexivity|reflexivity|reflexivity|].
    unfold sample_now, SEVEN_DAYS. lia.
Defined.

(** ** Status transitions *)

Lemma transitionb_spec old new : transitionb old new = true ↔ transition old new.
Proof.
  split.
  - destruct old, new; cbn; intros; try discriminate; by constructor.
  - intros [| | | st Hst | st Hst]; try done; by destruct st.
Qed.

Lemma after_discard {A} (m : Store A) kv :
  after (_ ← m; mret ()) kv = after m kv.
Proof. unfold_store. by destruct (m kv). Qed.

Lemma status_effect_refl op d : status_effect op d d.
Proof. by left. Qed.

Lemma status_effect_update op pid st extra kv :
  request_of op = Some (pid, st) →
  Forall2 (status_effect op) (pending_deposits kv)
    (pending_deposits (after (updateDepositStatus pid st extra) kv)).
Proof.
  intros Hop.
  eapply Forall2_impl; [apply updateDepositStatus_effect|].
  intros d d' [-> | [<- ->]]; [by left|].
  right; left. by rewrite Hop.
Qed.

Lemma updateDepositStatus_overwritten pid st extra kv :
  overwritten_at pid (λ d d', d' = spread d extra st) (pending_deposits kv)
    (pending_deposits (after (updateDepositStatus pid st extra) kv)).
Proof.
  unfold overwritten_at, after.
  destruct (list_find (λ d, paymentId d = pid) (pending_deposits kv))
    as [[i d]|] eqn:Hf.
  - rewrite (updateDepositStatus_found _ _ _ _ _ _ Hf). cbn.
    apply list_find_Some in Hf as (Hl & _). split.
    + eexists. split; [|done].
      apply list_lookup_insert_eq. by eapply lookup_lt_Some.
    + intros j Hj. by apply list_lookup_insert_ne.
  - by rewrite (updateDepositStatus_missing _ _ _ _ Hf).
Qed.

Lemma overwritten_at_impl pid (Q Q' : PendingDeposit → PendingDeposit → Prop) ds ds' :
  (∀ d d', Q d d' → Q' d d') →
  overwritten_at pid Q ds ds' → overwritten_at pid Q' ds ds'.
Proof.
  unfold overwritten_at. intros HQ.
  destruct (list_find _ _) as [[i d]|]; [|done].
  intros [(d' & Hd' & Hq) Hrest]. eauto.
Qed.

(** C2 (amended). A status-mutating operation never adds, removes or
    moves a record.  [updateDepositStatus] and the [markDepositAs*]
    helpers overwrite the first record with the payment id addressed, at
    its place, giving it the status asked for whatever its current status
    (with the additional data merged in; a helper writes its own fields,
    as [marked] lists them, and keeps every other field), leave every
    other record exactly as it is, and change nothing when no record has
    the payment id.  The expiry sweep moves
    the pending and sent records that are too old to expired and leaves
    every other record exactly as it is.  So each record's status is left
    as it is, or overwritten by the status asked for, or moved from
    pending or sent to expired. *)
Theorem status_is_overwritten Date_getTime op kv :
  let ds := pending_deposits kv in
  let ds' := pending_deposits (after (perform Date_getTime op) kv) in
  length ds' = length ds
  ∧ Forall2 (status_effect op) ds ds'
  ∧ match op with
    | Cleanup now =>
        ∀ i d, ds !! i = Some d →
          ds' !! i = Some (swept Date_getTime now d)
          ∧ (swept Date_getTime now d = d
             ∨ (status d = pending ∨ status d = sent)
               ∧ swept Date_getTime now d = set_status d expired)
    | UpdateStatus p st extra =>
        overwritten_at p (λ d d', d' = spread d extra st) ds ds'
    | _ =>
        match request_of op with
        | Some (p, st) =>
            overwritten_at p
              (λ d d', status d' = st ∧ same_payment d d' ∧ marked op d d')
              ds ds'
        | None => True
        end
    end.
Proof.
  cbv zeta.
  assert (Forall2 (status_effect op) (pending_deposits kv)
            (pending_deposits (after (perform Date_getTime op) kv))) as Hall.
  { destruct op as [p st extra | now p sig | now p | now p created cid
                   | p err | now].
    all: cbn [perform]; rewrite after_discard.
    1-5: by apply status_effect_update.
    eapply Forall2_impl; [apply cleanup_effect|].
    intros d d' [-> | [Hst ->]]; [by left|].
    right; right. done. }
  split_and!; [symmetry; by eapply Forall2_length|done|].
  destruct op as [p st extra | now p sig | now p | now p created cid
                 | p err | now];
    cbn [perform request_of]; rewrite after_discard.
  - apply updateDepositStatus_overwritten.
  - eapply overwritten_at_impl; [|apply updateDepositStatus_overwritten].
    intros d d' ->. by repeat split.
  - eapply overwritten_at_impl; [|apply updateDepositStatus_overwritten].
    intros d d' ->. by repeat split.
  - eapply overwritten_at_impl; [|apply updateDepositStatus_overwritten].
    intros d d' ->. by repeat split.
  - eapply overwritten_at_impl; [|apply updateDepositStatus_overwritten].
    intros d d' ->. by repeat split.
  - intros i d Hd. unfold after. rewrite cleanupExpiredDeposits_run. cbn.
    rewrite list_lookup_fmap, Hd. split; [done|].
    unfold swept. destruct (stale Date_getTime now d) eqn:Hst; [|by left].
    right. by apply stale_iff in Hst as [? _].
Qed.

(** C2, as stated, fails: on the ledger where [pay-1] went through sent
    and confirmed to credited, [markDepositAsFailed] moves it out of the
    terminal state credited, and [updateDepositStatus] with status pending
    moves it backwards; neither is a transition of the table. *)
Lemma credited_is_overwritten :
  status <$> pending_deposits credited_ledger = [credited]
  ∧ status <$> pending_deposits
      (after (perform sample_getTime (MarkFailed "pay-1" "late")) credited_ledger)
    = [failed]
  ∧ ¬ transition credited failed
  ∧ status <$> pending_deposits
      (after (perform sample_getTime (UpdateStatus "pay-1" pending no_fields))
         credited_ledger)
    = [pending]
  ∧ ¬ transition credited pending.
Proof.
  split_and!; try reflexivity;
    rewrite <- transitionb_spec; cbn; discriminate.
Qed.

(** ** Unknown payment ids *)

Lemma unknown_paymentId kv pid :
  Forall (λ d, paymentId d ≠ pid) (pending_deposits kv) →
  list_find (λ d, paymentId d = pid) (pending_deposits kv) = None.
Proof. intros. by apply list_find_None. Qed.

(** C10 (amended). For a payment id that matches no record of the ledger,
    [updateDepositStatus] and each [markDepositAs*] helper leave the store
    as it is and return [null]; the GET lookup by that payment id, when
    the id is not the empty string, answers 404. *)
Theorem unknown_paymentId_not_found kv pid :
  Forall (λ d, paymentId d ≠ pid) (pending_deposits kv) →
  (∀ st extra, run (updateDepositStatus pid st extra) kv = (None, kv))
  ∧ (∀ now sig, run (markDepositAsSent now pid sig) kv = (None, kv))
  ∧ (∀ now, run (markDepositAsConfirmed now pid) kv = (None, kv))
  ∧ (∀ now created cid,
       run (markDepositAsCredited now pid created cid) kv = (None, kv))
  ∧ (∀ err, run (markDepositAsFailed pid err) kv = (None, kv))
  ∧ (pid ≠ "" →
     run (KripicardWebhook.GET (Some pid)) kv
       = (KripicardWebhook.DepositNotFound, kv)
     ∧ KripicardWebhook.http_status
         (result (KripicardWebhook.GET (Some pid)) kv) = 404%Z).
Proof.
  intros Hnone%unknown_paymentId.
  split_and!; intros;
    try (by apply updateDepositStatus_missing).
  assert (run (KripicardWebhook.GET (Some pid)) kv
          = (KripicardWebhook.DepositNotFound, kv)) as Hget.
  { unfold KripicardWebhook.GET, Js.truthy_opt, Js.truthy_string.
    destruct (String.eqb_spec pid "") as [|_]; [done|]. cbn.
    unfold getDepositByPaymentId, find. unfold_store. by rewrite Hnone. }
  unfold result. by rewrite Hget.
Qed.

(** [pay-2] is not in the ledger that tracks [pay-1]. *)
Lemma unknown_paymentId_not_found_sample :
  run (markDepositAsConfirmed "2024-01-02T00:00:00.000Z" "pay-2") sample_ledger
    = (None, sample_ledger)
  ∧ KripicardWebhook.http_status
      (result (KripicardWebhook.GET (Some "pay-2")) sample_ledger) = 404%Z.
Proof.
  destruct (unknown_paymentId_not_found sample_ledger "pay-2")
    as (_ & _ & Hconfirmed & _ & _ & Hget).
  - repeat constructor. discriminate.
  - split; [apply Hconfirmed|]. apply Hget. discriminate.
Defined.

(** C10, as stated, fails at the empty payment id: no record of the
    ledger has it, and the GET handler takes [?paymentId=] for a request
    without a payment id and answers 200 with the whole ledger. *)
Lemma empty_paymentId_lists_ledger :
  Forall (λ d, paymentId d ≠ "") (pending_deposits sample_ledger)
  ∧ KripicardWebhook.http_status
      (result (KripicardWebhook.GET (Some "")) sample_ledger) = 200%Z
  ∧ ∃ summary,
      result (KripicardWebhook.GET (Some "")) sample_ledger
      = KripicardWebhook.AllDeposits (pending_deposits sample_ledger) summary.
Proof.
  split_and!.
  - repeat constructor. discriminate.
  - reflexivity.
  - eexists. reflexivity.
Qed.

(** ** Reasoning about handlers *)

Lemma hoare_ret {A} (P : KV → Prop) (Q : A → KV → Prop) (a : A) :
  (∀ kv, P kv → Q a kv) → hoare P (mret a) Q.
Proof. intros HPQ kv HP. by apply HPQ. Qed.

Lemma hoare_bind {A B} (P : KV → Prop) (Q : A → KV → Prop) (R : B → KV → Prop)
    (m : Store A) (k : A → Store B) :
  hoare P m Q → (∀ a, hoare (Q a) (k a) R) → hoare P (a ← m; k a) R.
Proof.
  intros Hm Hk kv HP. specialize (Hm kv HP).
  unfold_store. destruct (m kv) as [a kv1]. cbn in Hm.
  apply (Hk a kv1 Hm).
Qed.

Lemma hoare_weaken {A} (P P' : KV → Prop) (Q Q' : A → KV → Prop) (m : Store A) :
  hoare P' m Q' → (∀ kv, P kv → P' kv) → (∀ a kv, Q' a kv → Q a kv) →
  hoare P m Q.
Proof. intros Hm HP HQ kv Hkv. apply HQ, Hm, HP, Hkv. Qed.

(** ** Uniqueness of payment ids *)

Lemma addPendingDeposit_run uuid now deposit kv :
  ∃ d, run (addPendingDeposit uuid now deposit) kv
       = (d, with_deposits kv (pending_deposits kv ++ [d]))
     ∧ paymentId d = n_paymentId deposit ∧ id d = uuid
     ∧ status d = pending ∧ createdAt d = now
     ∧ cardCreated d = n_cardCreated deposit.
Proof.
  unfold addPendingDeposit. unfold_store. cbn.
  eexists. split; [reflexivity|]. by cbn.
Qed.

Lemma addPendingDeposit_unique uuid now deposit kv :
  unique_paymentIds kv →
  unique_paymentIds (after (addPendingDeposit uuid now deposit) kv)
  ↔ n_paymentId deposit ∉ paymentId <$> pending_deposits kv.
Proof.
  intros Huniq. unfold unique_paymentIds, after.
  destruct (addPendingDeposit_run uuid now deposit kv) as (d & -> & <- & _).
  cbn. rewrite fmap_app. cbn. rewrite NoDup_app. split.
  - intros (_ & Hnot & _) Hin. apply (Hnot _ Hin). by left.
  - intros Hnot. split_and!; [done| |apply NoDup_singleton].
    intros x Hx ->%list_elem_of_singleton. done.
Qed.

Lemma updateDepositStatus_unique pid st extra :
  p_paymentId extra = None →
  hoare unique_paymentIds (updateDepositStatus pid st extra)
    (λ _, unique_paymentIds).
Proof.
  intros Hextra kv Huniq. unfold unique_paymentIds.
  by rewrite updateDepositStatus_paymentIds.
Qed.

Lemma getDepositByPaymentId_run pid kv :
  run (getDepositByPaymentId pid) kv
  = (find (λ d, paymentId d = pid) (pending_deposits kv), kv).
Proof. done. Qed.

Lemma untracked_fresh pid kv :
  find (λ d, paymentId d = pid) (pending_deposits kv) = None →
  pid ∉ paymentId <$> pending_deposits kv.
Proof.
  rewrite find_None, Forall_forall. intros Hnone Hin.
  apply list_elem_of_fmap in Hin as (d & -> & Hd). by apply (Hnone d).
Qed.

Lemma POST_unique parseFloat env body :
  hoare unique_paymentIds (KripicardWebhook.POST parseFloat env body)
    (λ _, unique_paymentIds).
Proof.
  destruct body as [hook|]; [|by apply hoare_ret].
  cbn [KripicardWebhook.POST].
  eapply hoare_bind with
    (Q := λ tracked kv, unique_paymentIds kv
            ∧ (tracked = None → w_uuid hook ∉ paymentId <$> pending_deposits kv)).
  { intros kv Huniq. unfold result, after.
    rewrite getDepositByPaymentId_run. cbn.
    eauto using untracked_fresh. }
  intros tracked.
  eapply hoare_bind with (Q := λ _, unique_paymentIds).
  { destruct tracked as [d|].
    - intros kv [Huniq _]. done.
    - intros kv [Huniq Hfresh]. apply addPendingDeposit_unique; auto. }
  intros deposit.
  eapply hoare_bind with (Q := λ _, unique_paymentIds); [|intros; by apply hoare_ret].
  destruct (KripicardWebhook.confirms _).
  - eapply hoare_bind with (Q := λ _, unique_paymentIds);
      [by apply updateDepositStatus_unique|intros _].
    destruct (negb _); [|by apply hoare_ret].
    destruct (KripicardWebhook.cardReply env) as [|[] cid];
      (eapply hoare_bind with (Q := λ _, unique_paymentIds);
        [by apply updateDepositStatus_unique|intros; by apply hoare_ret]).
  - destruct (KripicardWebhook.fails _); [|by apply hoare_ret].
    eapply hoare_bind with (Q := λ _, unique_paymentIds);
      [by apply updateDepositStatus_unique|intros; by apply hoare_ret].
Qed.

(** C4 (amended). On a ledger whose payment ids are pairwise distinct,
    [updateDepositStatus] with additional data that does not carry a
    payment id, each [markDepositAs*] helper and the webhook POST handler
    (which adds a record only when it finds none with the payment id) keep
    them distinct; [addPendingDeposit] checks nothing and keeps them
    distinct exactly when the payment id it is given is not in the ledger. *)
Theorem paymentIds_stay_unique kv :
  unique_paymentIds kv →
  (∀ uuid now deposit,
     unique_paymentIds (after (addPendingDeposit uuid now deposit) kv)
     ↔ n_paymentId deposit ∉ paymentId <$> pending_deposits kv)
  ∧ (∀ pid st extra, p_paymentId extra = None →
       unique_paymentIds (after (updateDepositStatus pid st extra) kv))
  ∧ (∀ now pid sig, unique_paymentIds (after (markDepositAsSent now pid sig) kv))
  ∧ (∀ now pid, unique_paymentIds (after (markDepositAsConfirmed now pid) kv))
  ∧ (∀ now pid created cid,
       unique_paymentIds (after (markDepositAsCredited now pid created cid) kv))
  ∧ (∀ pid err, unique_paymentIds (after (markDepositAsFailed pid err) kv))
  ∧ (∀ parseFloat env body,
       unique_paymentIds (after (KripicardWebhook.POST parseFloat env body) kv)).
Proof.
  intros Huniq. split_and!; intros.
  - by apply addPendingDeposit_unique.
  - by apply updateDepositStatus_unique.
  - by apply updateDepositStatus_unique.
  - by apply updateDepositStatus_unique.
  - by apply updateDepositStatus_unique.
  - by apply updateDepositStatus_unique.
  - by apply POST_unique.
Qed.

(** The webhook for [pay-1] replayed on the ledger that tracks [pay-1]
    adds no record. *)
Lemma paymentIds_stay_unique_sample :
  unique_paymentIds sample_ledger
  ∧ unique_paymentIds
      (after (KripicardWebhook.POST sample_parseFloat
                (sample_env KripicardWebhook.CardThrew)
                (Some (sample_hook "paid" None))) sample_ledger).
Proof.
  assert (unique_paymentIds sample_ledger) as Huniq.
  { apply NoDup_singleton. }
  split; [exact Huniq|].
  apply (paymentIds_stay_unique sample_ledger Huniq).
Defined.

(** C4, as stated, fails: [addPendingDeposit] with a payment id the
    ledger already tracks appends a second record with it; and
    [updateDepositStatus] with additional data that carries the payment id
    of another record makes two records share it. *)
Lemma addPendingDeposit_duplicates :
  unique_paymentIds sample_ledger
  ∧ paymentId <$> pending_deposits
      (after (addPendingDeposit "id-2" "2024-01-02T00:00:00.000Z"
                (sample_new_deposit "pay-1")) sample_ledger)
    = ["pay-1"; "pay-1"]
  ∧ ¬ unique_paymentIds
      (after (addPendingDeposit "id-2" "2024-01-02T00:00:00.000Z"
                (sample_new_deposit "pay-1")) sample_ledger)
  ∧ paymentId <$> pending_deposits two_ledger = ["pay-1"; "pay-2"]
  ∧ paymentId <$> pending_deposits
      (after (updateDepositStatus "pay-1" pending (only_paymentId "pay-2"))
         two_ledger)
    = ["pay-2"; "pay-2"].
Proof.
  split_and!.
  - apply NoDup_singleton.
  - reflexivity.
  - unfold unique_paymentIds.
    change (¬ NoDup ["pay-1"; "pay-1"]).
    intros Hnd. apply NoDup_cons in Hnd as [Hnotin _].
    apply Hnotin. by left.
  - reflexivity.
  - reflexivity.
Qed.

(** ** The card-provider webhook *)

Lemma updateDepositStatus_tracks pid st extra d :
  p_paymentId extra = None →
  hoare (λ kv, ∃ i, list_find (λ d, paymentId d = pid) (pending_deposits kv)
                    = Some (i, d))
    (updateDepositStatus pid st extra)
    (λ r kv, r = Some (spread d extra st)
             ∧ ∃ i, list_find (λ d, paymentId d = pid) (pending_deposits kv)
                    = Some (i, spread d extra st)).
Proof.
  intros Hextra kv [i Hf]. unfold result, after.
  rewrite (updateDepositStatus_found _ _ _ _ _ _ Hf). cbn.
  split; [done|]. exists i.
  eapply list_find_overwrite; [done|].
  cbn. rewrite Hextra. cbn. by apply list_find_Some in Hf as (_ & ? & _).
Qed.

(** The record a confirming webhook leaves for its payment id, given the
    record [deposit] it started from. *)
Lemma POST_credits_from pid env deposit :
  Js.truthy_flag (cardCreated deposit) = false →
  hoare (λ kv, ∃ i, list_find (λ d, paymentId d = pid) (pending_deposits kv)
                    = Some (i, deposit))
    (_ ← markDepositAsConfirmed (KripicardWebhook.confirmedNow env) pid;
     if negb (Js.truthy_flag (cardCreated deposit)) then
       match KripicardWebhook.cardReply env with
       | KripicardWebhook.CardReplied true cardId' =>
           _ ← markDepositAsCredited (KripicardWebhook.creditedNow env) pid
                 true cardId';
           mret ()
       | KripicardWebhook.CardReplied false _ =>
           _ ← markDepositAsCredited (KripicardWebhook.creditedNow env) pid
                 false None;
           mret ()
       | KripicardWebhook.CardThrew =>
           _ ← markDepositAsCredited (KripicardWebhook.creditedNow env) pid
                 false None;
           mret ()
       end
     else mret ())
    (λ _ kv, ∃ d', tracks pid d' kv
       ∧ status d' = credited
       ∧ confirmedAt d' = Some (KripicardWebhook.confirmedNow env)
       ∧ creditedAt d' = Some (KripicardWebhook.creditedNow env)
       ∧ match KripicardWebhook.cardReply env with
         | KripicardWebhook.CardReplied true cid =>
             cardCreated d' = Some true ∧ cardId d' = cid
         | _ => cardCreated d' = Some false ∧ cardId d' = None
         end).
Proof.
  intros Hflag. rewrite Hflag. cbn [negb].
  eapply hoare_bind; [by apply updateDepositStatus_tracks|].
  intros r0. cbn beta.
  destruct (KripicardWebhook.cardReply env) as [|[] cid];
    (eapply hoare_bind;
     [eapply hoare_weaken;
      [by apply updateDepositStatus_tracks | by intros kv [_ H] | done]
     |]);
    intros r; apply hoare_ret; intros kv [_ [i Hf]];
    (eexists; split; [apply find_Some; eauto|]); by cbn.
Qed.

Lemma POST_credits parseFloat env hook :
  KripicardWebhook.confirms (w_status hook) = true →
  hoare (λ kv, ∀ d, tracks (w_uuid hook) d kv →
                    Js.truthy_flag (cardCreated d) = false)
    (KripicardWebhook.POST parseFloat env (Some hook))
    (λ r kv, r = KripicardWebhook.WebhookProcessed (w_uuid hook) (w_status hook)
       ∧ ∃ d', tracks (w_uuid hook) d' kv
         ∧ status d' = credited
         ∧ confirmedAt d' = Some (KripicardWebhook.confirmedNow env)
         ∧ creditedAt d' = Some (KripicardWebhook.creditedNow env)
         ∧ match KripicardWebhook.cardReply env with
           | KripicardWebhook.CardReplied true cid =>
               cardCreated d' = Some true ∧ cardId d' = cid
           | _ => cardCreated d' = Some false ∧ cardId d' = None
           end).
Proof.
  intros Hconf. cbn [KripicardWebhook.POST]. rewrite Hconf.
  eapply hoare_bind with
    (Q := λ tracked kv,
            tracked = find (λ d, paymentId d = w_uuid hook) (pending_deposits kv)
            ∧ ∀ d, tracks (w_uuid hook) d kv →
                   Js.truthy_flag (cardCreated d) = false).
  { intros kv Hflag. unfold result, after.
    by rewrite getDepositByPaymentId_run. }
  intros tracked.
  eapply hoare_bind with
    (Q := λ deposit kv,
            Js.truthy_flag (cardCreated deposit) = false
            ∧ ∃ i, list_find (λ d, paymentId d = w_uuid hook) (pending_deposits kv)
                   = Some (i, deposit)).
  { destruct tracked as [d|].
    - apply hoare_ret. intros kv [Hd Hflag]. symmetry in Hd.
      split; [by apply Hflag|]. by apply find_Some.
    - intros kv [Hnone _]. symmetry in Hnone. unfold result, after.
      edestruct addPendingDeposit_run as (d & -> & Hpid & _ & _ & _ & Hcreated).
      cbn [fst snd pending_deposits with_deposits].
      split; [by rewrite Hcreated|].
      eexists. apply list_find_snoc; [|done].
      unfold find in Hnone. by apply fmap_None in Hnone. }
  intros deposit.
  eapply hoare_bind with
    (Q := λ _ kv, ∃ d', tracks (w_uuid hook) d' kv
       ∧ status d' = credited
       ∧ confirmedAt d' = Some (KripicardWebhook.confirmedNow env)
       ∧ creditedAt d' = Some (KripicardWebhook.creditedNow env)
       ∧ match KripicardWebhook.cardReply env with
         | KripicardWebhook.CardReplied true cid =>
             cardCreated d' = Some true ∧ cardId d' = cid
         | _ => cardCreated d' = Some false ∧ cardId d' = None
         end).
  - intros kv [Hflag Hf]. by apply (POST_credits_from _ env deposit Hflag kv).
  - intros _. by apply hoare_ret.
Qed.

(** C3 (amended). In the card-provider webhook, when the payload
    confirms the payment and the deposit does not already have its card,
    the deposit ends credited in every case: with [cardCreated = true] and
    the returned card id when the card-creation call succeeds, and with
    [cardCreated = false] and no card id when the call fails or throws.
    The response to the processor is the success response in every
    case. *)
Theorem confirmed_deposit_is_credited parseFloat env hook kv :
  KripicardWebhook.confirms (w_status hook) = true →
  (∀ d, tracks (w_uuid hook) d kv → Js.truthy_flag (cardCreated d) = false) →
  let r := result (KripicardWebhook.POST parseFloat env (Some hook)) kv in
  let kv' := after (KripicardWebhook.POST parseFloat env (Some hook)) kv in
  r = KripicardWebhook.WebhookProcessed (w_uuid hook) (w_status hook)
  ∧ KripicardWebhook.http_status r = 200%Z
  ∧ KripicardWebhook.success r = true
  ∧ ∃ d', tracks (w_uuid hook) d' kv'
      ∧ status d' = credited
      ∧ confirmedAt d' = Some (KripicardWebhook.confirmedNow env)
      ∧ creditedAt d' = Some (KripicardWebhook.creditedNow env)
      ∧ match KripicardWebhook.cardReply env with
        | KripicardWebhook.CardReplied true cid =>
            cardCreated d' = Some true ∧ cardId d' = cid
        | _ => cardCreated d' = Some false ∧ cardId d' = None
        end.
Proof.
  intros Hconf Hflag r kv'.
  destruct (POST_credits parseFloat env hook Hconf kv Hflag) as [Hr Hd].
  fold r in Hr. fold kv' in Hd. rewrite Hr. auto.
Qed.

(** A first webhook for [pay-1] whose card-creation call throws. *)
Lemma confirmed_deposit_is_credited_sample :
  let kv' := after (KripicardWebhook.POST sample_parseFloat
                      (sample_env KripicardWebhook.CardThrew)
                      (Some (sample_hook "paid" None))) kv_empty in
  ∃ d', tracks "pay-1" d' kv' ∧ status d' = credited
        ∧ cardCreated d' = Some false ∧ cardId d' = None.
Proof.
  destruct (confirmed_deposit_is_credited sample_parseFloat
              (sample_env KripicardWebhook.CardThrew)
              (sample_hook "paid" None) kv_empty)
    as (_ & _ & _ & d' & Htracks & Hstatus & _ & _ & Hcard & Hid).
  - reflexivity.
  - intros d Hd. discriminate Hd.
  - exists d'. auto.
Defined.

(** C3, as stated, fails: when the card-creation call throws, or replies
    without success, the deposit does not stay confirmed; it is marked
    credited. *)
Lemma failed_card_is_credited :
  status <$> pending_deposits
    (after (KripicardWebhook.POST sample_parseFloat
              (sample_env KripicardWebhook.CardThrew)
              (Some (sample_hook "paid" None))) kv_empty)
  = [credited]
  ∧ status <$> pending_deposits
      (after (KripicardWebhook.POST sample_parseFloat
                (sample_env (KripicardWebhook.CardReplied false None))
                (Some (sample_hook "paid" None))) kv_empty)
    = [credited]
  ∧ cardCreated <$> pending_deposits
      (after (KripicardWebhook.POST sample_parseFloat
                (sample_env KripicardWebhook.CardThrew)
                (Some (sample_hook "paid" None))) kv_empty)
    = [Some false]
  ∧ credited ≠ confirmed.
Proof. by split_and!. Qed.

(** The handler answers the success response to every payload it can
    parse, whatever the card-creation call does. *)
Lemma POST_always_succeeds parseFloat env hook kv :
  result (KripicardWebhook.POST parseFloat env (Some hook)) kv
  = KripicardWebhook.WebhookProcessed (w_uuid hook) (w_status hook).
Proof.
  cbn [KripicardWebhook.POST]. unfold_store.
  repeat match goal with
         | |- context [let (_, _) := ?m in _] => destruct m
         end.
  done.
Qed.

(** ** Signatures *)

(** The card-provider webhook does not depend on the [sign] property of
    the payload: no signature is refused. *)
Lemma KripicardWebhook_ignores_sign parseFloat env hook sign kv :
  run (KripicardWebhook.POST parseFloat env (Some (with_sign hook sign))) kv
  = run (KripicardWebhook.POST parseFloat env (Some hook)) kv.
Proof. reflexivity. Qed.

(** The payment-processor webhook refuses a payload whose signature does
    not verify, with 401 and the store as it was. *)
Lemma DepositWebhook_refuses_invalid_signature
    verifyWebhookSignature isPaymentSuccessful parseFloat JSON_wallet now body kv :
  verifyWebhookSignature (DepositWebhook.bodyWithoutSign body) (w_sign body) = false →
  run (DepositWebhook.POST verifyWebhookSignature isPaymentSuccessful parseFloat
         JSON_wallet now (Some body)) kv
  = (DepositWebhook.InvalidSignature, kv)
  ∧ DepositWebhook.http_status DepositWebhook.InvalidSignature = 401%Z.
Proof.
  intros Hbad. split; [|done].
  cbn [DepositWebhook.POST]. by rewrite Hbad.
Qed.

(** C1 (the code at the failing input). With a verification that accepts
    no signature at all, the payment-processor webhook answers 401 and
    leaves the store as it was, and the card-provider webhook answers 200
    to the same payload and writes a credited deposit to the ledger. *)
Theorem forged_webhook_is_processed :
  let verifyWebhookSignature := λ (_ : CryptomusWebhook) (_ : option string), false in
  let forged := sample_hook "paid" (Some "forged") in
  let env := sample_env (KripicardWebhook.CardReplied true (Some "card-1")) in
  run (DepositWebhook.POST verifyWebhookSignature (String.eqb "paid")
         sample_parseFloat (λ _, None) "2024-01-01T00:00:00.000Z"
         (Some forged)) kv_empty
  = (DepositWebhook.InvalidSignature, kv_empty)
  ∧ KripicardWebhook.http_status
      (result (KripicardWebhook.POST sample_parseFloat env (Some forged)) kv_empty)
    = 200%Z
  ∧ (paymentId <$> pending_deposits
       (after (KripicardWebhook.POST sample_parseFloat env (Some forged)) kv_empty),
     status <$> pending_deposits
       (after (KripicardWebhook.POST sample_parseFloat env (Some forged)) kv_empty))
    = (["pay-1"], [credited])
  ∧ pending_deposits kv_empty = [].
Proof. by split_and!. Qed.

(** ** The payment-processor webhook *)

Section DepositWebhookProperties.

Variable verifyWebhookSignature : CryptomusWebhook → option string → bool.
Variable isPaymentSuccessful : string → bool.
Variable parseFloat : string → Js.number.
Variable JSON_wallet : string → option string.

(** C7. A validly signed payload of a successful payment persists, under
    its order id, a deposit with status [paid] whose amount is the paid
    USD amount less a fee of 2% of it plus 5; for a paid amount of 100 the
    amount credited is 93. *)
Theorem paid_deposit_is_credited_less_fee now body kv :
  verifyWebhookSignature (DepositWebhook.bodyWithoutSign body) (w_sign body) = true →
  isPaymentSuccessful (w_status body) = true →
  let handler :=
    DepositWebhook.POST verifyWebhookSignature isPaymentSuccessful parseFloat
      JSON_wallet now (Some body) in
  let paid := parseFloat (w_payment_amount_usd body) in
  result handler kv = DepositWebhook.Accepted
  ∧ ∃ d, webhook_deposit (after handler kv) !! w_order_id body = Some d
      ∧ wd_status d = "paid"
      ∧ wd_orderId d = w_order_id body
      ∧ wd_paymentId d = w_uuid body
      ∧ wd_paidAt d = Some now
      ∧ wd_amount d = (paid - (paid * 0.02 + 5))%float
      ∧ (paid = 100%float → wd_amount d = 93%float).
Proof.
  intros Hsigned Hpaid handler paid. subst handler.
  cbn [DepositWebhook.POST]. rewrite Hsigned, Hpaid. cbn [negb].
  unfold_store. cbn. split; [done|].
  eexists. split; [apply lookup_insert_eq|].
  cbn. split_and!; try done.
  fold paid. by intros ->.
Qed.

End DepositWebhookProperties.

(** The example of the specification: status [paid] and
    [payment_amount_usd = "100"]. *)
Lemma paid_100_is_credited_93 :
  let handler :=
    DepositWebhook.POST (λ _ _, true) (String.eqb "paid") sample_parseFloat
      (λ _, None) "2024-01-01T00:00:00.000Z"
      (Some (sample_hook "paid" (Some "signed"))) in
  ∃ d, webhook_deposit (after handler kv_empty) !! "order-1" = Some d
       ∧ wd_status d = "paid" ∧ wd_amount d = 93%float.
Proof.
  destruct (paid_deposit_is_credited_less_fee (λ _ _, true) (String.eqb "paid")
              sample_parseFloat (λ _, None) "2024-01-01T00:00:00.000Z"
              (sample_hook "paid" (Some "signed")) kv_empty)
    as (_ & d & Hd & Hstatus & _ & _ & _ & _ & H93).
  - reflexivity.
  - reflexivity.
  - exists d. split_and!; [exact Hd|exact Hstatus|]. apply H93. reflexivity.
Defined.

(** ** The balance route *)

Lemma truthy_string_true s : s ≠ "" → Js.truthy_string s = true.
Proof.
  intros Hs. unfold Js.truthy_string.
  by destruct (String.eqb_spec s "").
Qed.

Lemma POST_credit read write wallet amount kv :
  wallet ≠ "" →
  let current := result (Balance.getBalance read wallet) kv in
  let current' :=
    {| balance := (balance current + amount)%float;
       totalDeposited := (totalDeposited current + amount)%float;
       totalSpent := totalSpent current;
       lastUpdated := write |} in
  run (Balance.POST read write
         (Some {| Balance.r_walletAddress := Some wallet;
                  Balance.r_action := Some "credit";
                  Balance.r_amount := Some amount |})) kv
  = (Balance.Updated wallet current', with_balance kv wallet current').
Proof.
  intros Hwallet current current'.
  cbn [Balance.POST Balance.r_walletAddress Balance.r_action Balance.r_amount].
  by rewrite (truthy_string_true wallet).
Qed.

Lemma POST_debit read write wallet amount kv :
  wallet ≠ "" →
  let current := result (Balance.getBalance read wallet) kv in
  (balance current <? amount)%float = false →
  let current' :=
    {| balance := (balance current - amount)%float;
       totalDeposited := totalDeposited current;
       totalSpent := (totalSpent current + amount)%float;
       lastUpdated := write |} in
  run (Balance.POST read write
         (Some {| Balance.r_walletAddress := Some wallet;
                  Balance.r_action := Some "debit";
                  Balance.r_amount := Some amount |})) kv
  = (Balance.Updated wallet current', with_balance kv wallet current').
Proof.
  intros Hwallet current Haccepted current'.
  cbn [Balance.POST Balance.r_walletAddress Balance.r_action Balance.r_amount].
  rewrite (truthy_string_true wallet) by done. cbn [negb orb].
  subst current current'. unfold_store. unfold Balance.getBalance in *.
  cbn in Haccepted |- *. by rewrite Haccepted.
Qed.

Lemma getBalance_with_balance read wallet b kv :
  result (Balance.getBalance read wallet) (with_balance kv wallet b) = b.
Proof.
  unfold result, run, Balance.getBalance. cbn. by rewrite lookup_insert_eq.
Qed.

(** C5. A debit of more than the wallet's current balance is refused with
    HTTP 400 and [success = false] (the insufficient-balance reply,
    whenever the wallet address is not empty), and the store, hence the
    wallet's balance record, is as it was. *)
Theorem debit_over_balance_is_refused readNow writeNow wallet amount kv :
  (balance (result (Balance.getBalance readNow wallet) kv) <? amount)%float = true →
  let request :=
    Some {| Balance.r_walletAddress := Some wallet;
            Balance.r_action := Some "debit";
            Balance.r_amount := Some amount |} in
  let r := result (Balance.POST readNow writeNow request) kv in
  Balance.http_status r = 400%Z
  ∧ Balance.success r = false
  ∧ after (Balance.POST readNow writeNow request) kv = kv
  ∧ (wallet ≠ "" → r = Balance.InsufficientBalance).
Proof.
  intros Hover request r. subst r request.
  cbn [Balance.POST Balance.r_walletAddress Balance.r_action Balance.r_amount].
  destruct (Js.truthy_string wallet) eqn:Hwallet; cbn [negb orb Js.truthy_string].
  - unfold_store. unfold Balance.getBalance in *. cbn in Hover |- *.
    rewrite Hover. cbn. done.
  - split_and!; try done. intros Hne.
    by rewrite truthy_string_true in Hwallet.
Qed.

(** A debit of 5 from a wallet that holds nothing. *)
Lemma debit_over_balance_is_refused_sample :
  result (Balance.POST "2024-01-01T00:00:00.000Z" "2024-01-01T00:00:00.001Z"
            (balance_request "debit" 5%float)) kv_empty
  = Balance.InsufficientBalance
  ∧ after (Balance.POST "2024-01-01T00:00:00.000Z" "2024-01-01T00:00:00.001Z"
             (balance_request "debit" 5%float)) kv_empty
    = kv_empty.
Proof.
  destruct (debit_over_balance_is_refused "2024-01-01T00:00:00.000Z"
              "2024-01-01T00:00:00.001Z" "wallet-1" 5%float kv_empty)
    as (_ & _ & Hsame & Hreply).
  - reflexivity.
  - split; [by apply Hreply|exact Hsame].
Defined.

(** C6 (amended). A credit followed by a debit of the same amount, when
    the numbers written to the store survive it (the balance and totals
    before, after the credit and after the debit are finite and not [-0])
    and the debit is accepted (the credited balance is not below the
    amount), leaves the balance at (balance + amount) − amount, and raises
    [totalDeposited] and [totalSpent] each by the amount, every operation
    being the rounded one of binary64 numbers; the balance is back at its
    prior value when (balance + amount) − amount is that value. *)
Theorem credit_then_debit read1 write1 read2 write2 wallet amount kv :
  wallet ≠ "" →
  let before := result (Balance.getBalance read1 wallet) kv in
  let credited :=
    {| balance := (balance before + amount)%float;
       totalDeposited := (totalDeposited before + amount)%float;
       totalSpent := totalSpent before;
       lastUpdated := write1 |} in
  let debited :=
    {| balance := (balance before + amount - amount)%float;
       totalDeposited := (totalDeposited before + amount)%float;
       totalSpent := (totalSpent before + amount)%float;
       lastUpdated := write2 |} in
  storable before = true → storable credited = true → storable debited = true →
  (balance credited <? amount)%float = false →
  let request action :=
    Some {| Balance.r_walletAddress := Some wallet;
            Balance.r_action := Some action;
            Balance.r_amount := Some amount |} in
  let kv1 := after (Balance.POST read1 write1 (request "credit")) kv in
  let kv2 := after (Balance.POST read2 write2 (request "debit")) kv1 in
  Balance.success (result (Balance.POST read1 write1 (request "credit")) kv) = true
  ∧ Balance.success (result (Balance.POST read2 write2 (request "debit")) kv1) = true
  ∧ balances kv1 !! wallet = Some credited
  ∧ balances kv2 !! wallet = Some debited
  ∧ (balance debited = balance before →
     balance <$> balances kv2 !! wallet = Some (balance before)).
Proof.
  intros Hwallet before credited debited _ _ _ Haccepted request kv1 kv2.
  pose proof (POST_credit read1 write1 wallet amount kv Hwallet) as Hcredit.
  cbv zeta in Hcredit. fold before in Hcredit. fold credited in Hcredit.
  assert (kv1 = snd (run (Balance.POST read1 write1 (request "credit")) kv))
    as Hkv1 by done.
  unfold request in Hkv1. rewrite Hcredit in Hkv1. cbn [snd] in Hkv1.
  clearbody kv1. subst kv1.
  pose proof (POST_debit read2 write2 wallet amount
                (with_balance kv wallet credited) Hwallet) as Hdebit.
  cbv zeta in Hdebit.
  rewrite getBalance_with_balance in Hdebit.
  specialize (Hdebit Haccepted).
  subst kv2. unfold request, result, after. rewrite Hcredit, Hdebit.
  cbn [fst snd Balance.success balances with_balance].
  rewrite !lookup_insert_eq.
  split_and!; try done. cbn. by intros ->.
Qed.

(** 100 credited and debited on a wallet that holds 50. *)
Lemma credit_then_debit_sample :
  let kv := after (Balance.POST "t0" "t1" (balance_request "credit" 50%float))
              kv_empty in
  let kv1 := after (Balance.POST "t2" "t3" (balance_request "credit" 100%float)) kv in
  let kv2 := after (Balance.POST "t4" "t5" (balance_request "debit" 100%float)) kv1 in
  balances kv2 !! "wallet-1"
  = Some {| balance := 50; totalDeposited := 150; totalSpent := 100;
            lastUpdated := "t5" |}.
Proof.
  destruct (credit_then_debit "t2" "t3" "t4" "t5" "wallet-1" 100%float
              (after (Balance.POST "t0" "t1" (balance_request "credit" 50%float))
                 kv_empty))
    as (_ & _ & _ & Hrecord & _).
  - discriminate.
  - reflexivity.
  - reflexivity.
  - reflexivity.
  - reflexivity.
  - exact Hrecord.
Defined.

(** C6, as stated, fails: on a wallet that holds 0.1, a credit of 0.2 and
    a debit of 0.2 are both accepted and leave 0.10000000000000003. *)
Lemma credit_then_debit_drifts :
  let kv := after (Balance.POST "t0" "t1" (balance_request "credit" 0.1%float))
              kv_empty in
  let kv1 := after (Balance.POST "t2" "t3" (balance_request "credit" 0.2%float)) kv in
  let kv2 := after (Balance.POST "t4" "t5" (balance_request "debit" 0.2%float)) kv1 in
  balance <$> balances kv !! "wallet-1" = Some 0.1%float
  ∧ Balance.success
      (result (Balance.POST "t2" "t3" (balance_request "credit" 0.2%float)) kv)
    = true
  ∧ Balance.success
      (result (Balance.POST "t4" "t5" (balance_request "debit" 0.2%float)) kv1)
    = true
  ∧ balance <$> balances kv2 !! "wallet-1" = Some 0.10000000000000003%float
  ∧ balance <$> balances kv2 !! "wallet-1" ≠ balance <$> balances kv !! "wallet-1".
Proof.
  cbv zeta. split_and!; try (vm_compute; reflexivity).
  intros Heq.
  apply (f_equal (λ b, match b with
                       | Some x => PrimFloat.eqb x 0.1
                       | None => true
                       end)) in Heq.
  vm_compute in Heq. discriminate Heq.
Qed.

(** ** The card store route *)

(** C8 (amended). With a card id and a wallet address that are not
    empty, the card-store POST answers success and rewrites the wallet's
    card list only.  When the list holds a card with that card id, the
    first such card keeps its id, card id, wallet address, creation time
    and status, and its six other fields (lastFour, balance, cardNumber,
    cvv, expiry, cardHolder) become those of the request, a field the
    request leaves out becoming undefined; otherwise exactly one record is
    appended, with the generated id, status active and the fields of the
    request.  All other records are as they were. *)
Theorem card_is_stored uuid now cardId' wallet body kv :
  Cards.r_cardId body = Some cardId' → cardId' ≠ "" →
  Cards.r_walletAddress body = Some wallet → wallet ≠ "" →
  let userCards := default [] (cards kv !! wallet) in
  result (Cards.POST uuid now (Some body)) kv = Cards.Stored
  ∧ ∃ userCards',
      after (Cards.POST uuid now (Some body)) kv = with_cards kv wallet userCards'
      ∧ match list_find (λ c, c_cardId c = cardId') userCards with
        | Some (i, card) =>
            ∃ card', userCards' = <[i := card']> userCards
              ∧ c_id card' = c_id card
              ∧ c_cardId card' = c_cardId card
              ∧ c_walletAddress card' = c_walletAddress card
              ∧ c_createdAt card' = c_createdAt card
              ∧ c_status card' = c_status card
              ∧ c_lastFour card' = Cards.r_lastFour body
              ∧ c_balance card' = Cards.r_balance body
              ∧ c_cardNumber card' = Cards.r_cardNumber body
              ∧ c_cvv card' = Cards.r_cvv body
              ∧ c_expiry card' = Cards.r_expiry body
              ∧ c_cardHolder card' = Cards.r_cardHolder body
        | None =>
            ∃ card', userCards' = (userCards ++ [card'])%list
              ∧ c_id card' = uuid
              ∧ c_cardId card' = cardId'
              ∧ c_walletAddress card' = wallet
              ∧ c_createdAt card' = now
              ∧ c_status card' = active
              ∧ c_lastFour card' = Cards.r_lastFour body
              ∧ c_balance card' = Cards.r_balance body
              ∧ c_cardNumber card' = Cards.r_cardNumber body
              ∧ c_cvv card' = Cards.r_cvv body
              ∧ c_expiry card' = Cards.r_expiry body
              ∧ c_cardHolder card' = Cards.r_cardHolder body
        end.
Proof.
  intros HcardId Hne Hwallet Hwne. cbv zeta.
  cbn [Cards.POST]. rewrite HcardId, Hwallet.
  cbn [Js.truthy_opt from_option Datatypes.id].
  rewrite !truthy_string_true by done.
  cbn [negb orb]. unfold_store. unfold Cards.getCards, Cards.saveCards, findIndex.
  cbn [fst snd]. split; [done|].
  eexists. split; [reflexivity|].
  generalize (default [] (cards kv !! wallet)). intros userCards.
  destruct (list_find (λ c, c_cardId c = cardId') userCards)
    as [[i card]|] eqn:Hfind; cbn [fmap option_fmap option_map fst].
  - apply list_find_Some in Hfind as (Hcard & _). rewrite Hcard.
    eexists. split; [reflexivity|]. by cbn.
  - eexists. split; [reflexivity|]. by cbn.
Qed.

(** A first card stored for a wallet without cards. *)
Lemma card_is_stored_sample :
  ∃ card', cards (after (Cards.POST "id-1" "2024-01-01T00:00:00.000Z"
                           (card_request (Some "4242") (Some 25%float))) kv_empty)
             !! "wallet-1" = Some [card']
           ∧ c_id card' = "id-1" ∧ c_status card' = active
           ∧ c_lastFour card' = Some "4242".
Proof.
  destruct (card_is_stored "id-1" "2024-01-01T00:00:00.000Z" "card-1" "wallet-1"
              {| Cards.r_cardId := Some "card-1";
                 Cards.r_walletAddress := Some "wallet-1";
                 Cards.r_lastFour := Some "4242";
                 Cards.r_balance := Some 25%float;
                 Cards.r_cardNumber := None; Cards.r_cvv := None;
                 Cards.r_expiry := None; Cards.r_cardHolder := None |}
              kv_empty)
    as (_ & userCards' & Hafter & card' & -> & Hid & _ & _ & _ & Hst & Hfour & _);
    try done.
  exists card'. split_and!; try done.
  unfold card_request. rewrite Hafter. cbn [cards with_cards].
  by rewrite lookup_insert_eq.
Defined.

(** C8, as stated, fails: a second POST for the same card that supplies
    the balance only does not keep the stored [lastFour]; it erases it. *)
Lemma unsupplied_field_is_erased :
  let kv := after (Cards.POST "id-1" "2024-01-01T00:00:00.000Z"
                     (card_request (Some "4242") (Some 25%float))) kv_empty in
  let kv' := after (Cards.POST "id-2" "2024-01-02T00:00:00.000Z"
                      (card_request None (Some 30%float))) kv in
  c_lastFour <$> default [] (cards kv !! "wallet-1") = [Some "4242"]
  ∧ c_lastFour <$> default [] (cards kv' !! "wallet-1") = [None]
  ∧ c_id <$> default [] (cards kv' !! "wallet-1") = ["id-1"].
Proof. cbv zeta. split_and!; vm_compute; reflexivity. Qed.

(** * Further properties *)

(** ** Queries of the deposit ledger *)

Lemma length_by_status (deposits : list PendingDeposit) :
  length deposits
  = count_status pending deposits + count_status sent deposits
    + count_status confirmed deposits + count_status credited deposits
    + count_status failed deposits + count_status expired deposits.
Proof.
  unfold count_status. induction deposits as [|d rest IH]; [done|].
  rewrite !filter_cons. cbn [length]. rewrite IH.
  destruct (status d); repeat (destruct (decide _)); try done; cbn [length]; lia.
Qed.

Lemma length_filter_or (deposits : list PendingDeposit) (s1 s2 : DepositStatus) :
  s1 ≠ s2 →
  length (filter (λ d, status d = s1 ∨ status d = s2) deposits)
  = count_status s1 deposits + count_status s2 deposits.
Proof.
  intros Hne. unfold count_status.
  induction deposits as [|d rest IH]; [done|].
  rewrite !filter_cons.
  repeat (destruct (decide _)); cbn [length]; try lia;
    intuition congruence.
Qed.

(** X1. The summary counts partition the ledger: the total is the sum of
    the six per-status counts, the pending query returns as many deposits
    as the pending and sent counts together, and the confirmed query as
    many as the confirmed and credited counts together. *)
Theorem summary_counts_partition kv :
  let s := result getDepositSummary kv in
  s_total s = length (pending_deposits kv)
  ∧ s_total s = s_pending s + s_sent s + s_confirmed s + s_credited s
                + s_failed s + s_expired s
  ∧ length (result getPendingDeposits kv) = s_pending s + s_sent s
  ∧ length (result getConfirmedDeposits kv) = s_confirmed s + s_credited s.
Proof.
  cbn. split_and!; [done|apply length_by_status|..];
    by apply length_filter_or.
Qed.

Lemma find_snoc {A} (P : A → Prop) `{∀ x, Decision (P x)} (l : list A) x :
  find P (l ++ [x])
  = match find P l with
    | Some y => Some y
    | None => if decide (P x) then Some x else None
    end.
Proof.
  unfold find. destruct (list_find P l) as [[i y]|] eqn:Hl; cbn.
  - by rewrite (list_find_app_l _ _ _ _ _ Hl).
  - rewrite list_find_app_r by done. cbn. by case_decide.
Qed.

(** X2. Looking a payment id up after [addPendingDeposit]: a deposit the
    ledger already tracked under that id is still the one found, also
    when the new record carries the same id (the new record is then never
    found); otherwise the new record is found under its own id and
    nothing under any other.  The new record is pending, with the
    generated id and the creation time of the call. *)
Theorem lookup_after_add uuid now deposit pid kv :
  let added := result (addPendingDeposit uuid now deposit) kv in
  let kv' := after (addPendingDeposit uuid now deposit) kv in
  result (getDepositByPaymentId pid) kv'
  = match result (getDepositByPaymentId pid) kv with
    | Some d => Some d
    | None => if decide (n_paymentId deposit = pid) then Some added else None
    end
  ∧ status added = pending ∧ id added = uuid ∧ createdAt added = now
  ∧ paymentId added = n_paymentId deposit.
Proof.
  cbv zeta. unfold result, after. rewrite !getDepositByPaymentId_run.
  destruct (addPendingDeposit_run uuid now deposit kv)
    as (d & -> & Hp & Hid & Hst & Hc & _).
  cbn [fst snd pending_deposits with_deposits].
  rewrite find_snoc, Hp. split_and!; try done.
Qed.

Lemma list_find_insert_other {A} (P : A → Prop) `{∀ x, Decision (P x)}
    (l : list A) i x y :
  l !! i = Some x → ¬ P x → ¬ P y → list_find P (<[i := y]> l) = list_find P l.
Proof.
  revert i. induction l as [|a l IH]; intros i Hi Hx Hy; [done|].
  destruct i as [|i]; csimpl in *.
  - simplify_eq. by rewrite !decide_False by done.
  - case_decide; [done|]. by rewrite (IH i).
Qed.

(** X3. [updateDepositStatus] on a tracked payment id, with additional
    data that carries no payment id, returns the record it wrote, which
    is what a lookup of the id finds afterwards; the lookup of every other
    payment id finds what it found before. *)
Theorem lookup_after_update pid st extra d kv :
  p_paymentId extra = None → tracks pid d kv →
  let kv' := after (updateDepositStatus pid st extra) kv in
  result (updateDepositStatus pid st extra) kv = Some (spread d extra st)
  ∧ result (getDepositByPaymentId pid) kv' = Some (spread d extra st)
  ∧ ∀ pid', pid' ≠ pid →
      result (getDepositByPaymentId pid') kv'
      = result (getDepositByPaymentId pid') kv.
Proof.
  intros Hextra [i Hf]%find_Some. cbv zeta. unfold result, after.
  rewrite (updateDepositStatus_found _ _ _ _ _ _ Hf).
  rewrite !getDepositByPaymentId_run. cbn [fst snd pending_deposits with_deposits].
  pose proof Hf as (Hl & Hp & _)%list_find_Some.
  assert (paymentId (spread d extra st) = pid) as Hp'.
  { cbn. by rewrite Hextra. }
  split_and!; [done| |].
  - apply find_Some. exists i. by eapply list_find_overwrite.
  - intros pid' Hne. rewrite !getDepositByPaymentId_run.
    cbn [fst snd pending_deposits with_deposits]. unfold find.
    rewrite (list_find_insert_other _ _ i d); [done|done|..]; congruence.
Qed.

(** [pay-1] of the sample ledger marked confirmed. *)
Lemma lookup_after_update_sample :
  status <$> result (getDepositByPaymentId "pay-1")
               (after (updateDepositStatus "pay-1" confirmed no_fields) two_ledger)
  = Some confirmed
  ∧ status <$> result (getDepositByPaymentId "pay-2")
                 (after (updateDepositStatus "pay-1" confirmed no_fields) two_ledger)
    = Some pending.
Proof.
  eassert (tracks "pay-1" _ two_ledger) as Htracks by reflexivity.
  destruct (lookup_after_update "pay-1" confirmed no_fields _ two_ledger
              eq_refl Htracks) as (_ & Hsame & Hother).
  split.
  - by rewrite Hsame.
  - by rewrite Hother.
Defined.

(** X4. A deposit just added is listed last by the wallet query of its
    wallet, by no other wallet's query, last by the pending query, and not
    by the confirmed query; what the queries listed before is kept. *)
Theorem added_deposit_is_listed uuid now deposit w kv :
  let added := result (addPendingDeposit uuid now deposit) kv in
  let kv' := after (addPendingDeposit uuid now deposit) kv in
  result (getDepositsByWallet w) kv'
  = (result (getDepositsByWallet w) kv
     ++ if decide (n_walletAddress deposit = Some w) then [added] else [])%list
  ∧ result getPendingDeposits kv' = (result getPendingDeposits kv ++ [added])%list
  ∧ result getConfirmedDeposits kv' = result getConfirmedDeposits kv.
Proof.
  cbv zeta. unfold result, after.
  destruct (addPendingDeposit_run uuid now deposit kv)
    as (d & Hrun & _ & _ & Hst & _).
  rewrite Hrun.
  unfold getDepositsByWallet, getPendingDeposits, getConfirmedDeposits.
  unfold_store. cbn [fst snd pending_deposits with_deposits].
  rewrite !filter_app, !filter_cons, !filter_nil.
  assert (walletAddress d = n_walletAddress deposit) as ->.
  { by injection Hrun as <- _. }
  rewrite Hst. split_and!.
  - by destruct (decide _).
  - by rewrite decide_True by auto.
  - rewrite decide_False by (intros [|]; discriminate). by rewrite app_nil_r.
Qed.

(** ** What the marking helpers and the sweep keep *)

Lemma same_payment_refl d : same_payment d d.
Proof. by repeat split. Qed.

(** X5. The [markDepositAs*] helpers and the expiry sweep keep, for every
    record of the ledger, its id, payment id, wallet address, amounts,
    currency, deposit address, payment URL and creation time; they add and
    remove no record. *)
Theorem marking_keeps_payment Date_getTime op kv :
  (∀ p st extra, op ≠ UpdateStatus p st extra) →
  Forall2 same_payment (pending_deposits kv)
    (pending_deposits (after (perform Date_getTime op) kv)).
Proof.
  intros Hop.
  destruct op as [p st extra | now p sig | now p | now p created cid
                 | p err | now]; [by destruct (Hop p st extra)|..];
    cbn [perform]; rewrite after_discard.
  1-4: (eapply Forall2_impl; [apply updateDepositStatus_effect|];
        intros d d' [-> | [_ ->]]; [apply same_payment_refl|by repeat split]).
  eapply Forall2_impl; [apply cleanup_effect|].
  intros d d' [-> | [_ ->]]; [apply same_payment_refl|by repeat split].
Qed.

(** Crediting [pay-1] keeps the amount and creation time it was added
    with. *)
Lemma marking_keeps_payment_sample :
  (amountUsd <$> pending_deposits credited_ledger,
   createdAt <$> pending_deposits credited_ledger)
  = ([100%float], ["2024-01-01T00:00:00.000Z"])
  ∧ Forall2 same_payment (pending_deposits sample_ledger)
      (pending_deposits
         (after (perform sample_getTime
                   (MarkCredited "2024-01-01T00:03:00.000Z" "pay-1" true
                      (Some "card-1")))
            sample_ledger)).
Proof.
  split; [reflexivity|].
  apply marking_keeps_payment. discriminate.
Defined.

(** ** The sweep, repeated and queried *)

Section SweepAgain.

Variable Date_getTime : string → option Z.

Lemma swept_not_stale now d :
  stale Date_getTime now (swept Date_getTime now d) = false.
Proof.
  unfold swept. destruct (stale Date_getTime now d) eqn:Hst; [|done].
  unfold stale, awaiting. done.
Qed.

Lemma with_deposits_twice kv l l' :
  with_deposits (with_deposits kv l) l' = with_deposits kv l'.
Proof. done. Qed.

(** X6. The expiry sweep is idempotent: run again at the same time, it
    expires nothing, returns 0 and leaves the store as the first run left
    it. *)
Theorem expiry_sweep_idempotent now kv :
  let kv' := after (cleanupExpiredDeposits Date_getTime now) kv in
  run (cleanupExpiredDeposits Date_getTime now) kv' = (0, kv').
Proof.
  cbv zeta. unfold after. rewrite !cleanupExpiredDeposits_run.
  cbn [fst snd pending_deposits with_deposits].
  assert (filter (λ d, stale Date_getTime now d = true)
            (swept Date_getTime now <$> pending_deposits kv) = []) as Hnone.
  { induction (pending_deposits kv) as [|d rest IH]; [done|].
    cbn [fmap list_fmap].
    rewrite filter_cons_False by (by rewrite swept_not_stale). apply IH. }
  rewrite Hnone, with_deposits_twice. cbn [length]. f_equal. f_equal.
  apply swept_nothing. fold (fmap (M := list) (swept Date_getTime now)).
  by rewrite Hnone.
Qed.

(** X7. After the expiry sweep the pending query returns no deposit whose
    creation time is more than seven days before the time of the sweep. *)
Theorem no_stale_pending_after_sweep now kv :
  Forall (λ d, too_old Date_getTime now d = false)
    (result getPendingDeposits (after (cleanupExpiredDeposits Date_getTime now) kv)).
Proof.
  unfold after. rewrite cleanupExpiredDeposits_run.
  unfold result, getPendingDeposits. unfold_store.
  cbn [fst snd pending_deposits with_deposits].
  apply Forall_forall. intros d' [Hst (d & -> & _)%list_elem_of_fmap]%list_elem_of_filter.
  pose proof (swept_not_stale now d) as Hfresh.
  unfold stale, awaiting in Hfresh.
  by destruct Hst as [Hst | Hst]; rewrite Hst in Hfresh.
Qed.

End SweepAgain.

(** ** The card-provider webhook, path by path *)

(** The handler is its two halves in sequence. *)
Lemma POST_halves parseFloat env hook kv :
  run (KripicardWebhook.POST parseFloat env (Some hook)) kv
  = (KripicardWebhook.WebhookProcessed (w_uuid hook) (w_status hook),
     after (settled env hook (result (observed parseFloat env hook) kv))
       (after (observed parseFloat env hook) kv)).
Proof.
  cbn [KripicardWebhook.POST]. unfold observed, settled, getDepositByPaymentId.
  unfold_store.
  destruct (find _ _) as [d|].
  - cbn [fst snd]. by destruct (_ kv) as [[] kv2].
  - destruct (addPendingDeposit _ _ _ kv) as [d kv1]. cbn [fst snd].
    by destruct (_ kv1) as [[] kv2].
Qed.

Lemma observed_run parseFloat env hook kv :
  run (observed parseFloat env hook) kv
  = match find (λ d, paymentId d = w_uuid hook) (pending_deposits kv) with
    | Some d => (d, kv)
    | None =>
        (first_seen parseFloat env hook,
         with_deposits kv (pending_deposits kv ++ [first_seen parseFloat env hook]))
    end.
Proof.
  unfold observed, getDepositByPaymentId. unfold_store.
  by destruct (find _ _).
Qed.

Lemma observed_tracks parseFloat env hook kv :
  ∃ i, list_find (λ d, paymentId d = w_uuid hook)
         (pending_deposits (after (observed parseFloat env hook) kv))
       = Some (i, result (observed parseFloat env hook) kv).
Proof.
  unfold result, after. rewrite observed_run.
  destruct (find _ _) as [d|] eqn:Hfind; cbn [fst snd].
  - by apply find_Some.
  - eexists. cbn [pending_deposits with_deposits].
    apply list_find_snoc; [|done].
    unfold find in Hfind. by apply fmap_None in Hfind.
Qed.

(** What every update of the second half keeps, the second half keeps. *)
Lemma settled_keeps (J : KV → Prop) env hook deposit :
  (∀ st extra, p_paymentId extra = None →
     hoare J (updateDepositStatus (w_uuid hook) st extra) (λ _, J)) →
  hoare J (settled env hook deposit) (λ _, J).
Proof.
  intros Hupdate. unfold settled.
  destruct (KripicardWebhook.confirms _).
  - eapply hoare_bind; [by apply Hupdate|intros ?].
    destruct (negb _); [|by apply hoare_ret].
    destruct (KripicardWebhook.cardReply env) as [|[] cid];
      (eapply hoare_bind; [by apply Hupdate|intros; by apply hoare_ret]).
  - destruct (KripicardWebhook.fails _); [|by apply hoare_ret].
    eapply hoare_bind; [by apply Hupdate|intros; by apply hoare_ret].
Qed.

Lemma fails_not_confirms s :
  KripicardWebhook.fails s = true → KripicardWebhook.confirms s = false.
Proof.
  unfold KripicardWebhook.fails, KripicardWebhook.confirms.
  intros [[->%String.eqb_eq | ->%String.eqb_eq]%orb_true_iff
         | ->%String.eqb_eq]%orb_true_iff; reflexivity.
Qed.

(** X8. A payload of the card-provider webhook whose status is [cancel],
    [fail] or [wrong_amount] leaves the deposit of its payment id, tracked
    before or added by this request, with status failed and the error
    ["Payment " + status]; the processor is answered the success
    response. *)
Theorem failed_payment_is_marked parseFloat env hook kv :
  KripicardWebhook.fails (w_status hook) = true →
  let r := result (KripicardWebhook.POST parseFloat env (Some hook)) kv in
  let kv' := after (KripicardWebhook.POST parseFloat env (Some hook)) kv in
  KripicardWebhook.http_status r = 200%Z
  ∧ ∃ d', tracks (w_uuid hook) d' kv'
      ∧ status d' = failed
      ∧ error d' = Some ("Payment " +:+ w_status hook).
Proof.
  intros Hfails. cbv zeta. unfold result at 1, after at 1.
  rewrite POST_halves. cbn [fst snd]. split; [done|].
  destruct (observed_tracks parseFloat env hook kv) as [i Hf].
  unfold settled. rewrite (fails_not_confirms _ Hfails), Hfails.
  rewrite after_discard. unfold markDepositAsFailed.
  match goal with
  | |- context [updateDepositStatus ?p ?st ?extra] =>
      destruct (updateDepositStatus_tracks p st extra _ eq_refl _
                  (ex_intro _ i Hf)) as [_ [j Hj]]
  end.
  eexists. split; [apply find_Some; eauto|]. by repeat split.
Qed.

(** A cancelled payment the ledger did not track. *)
Lemma failed_payment_is_marked_sample :
  (status <$> pending_deposits
     (after (KripicardWebhook.POST sample_parseFloat
               (sample_env KripicardWebhook.CardThrew)
               (Some (sample_hook "cancel" None))) kv_empty),
   error <$> pending_deposits
     (after (KripicardWebhook.POST sample_parseFloat
               (sample_env KripicardWebhook.CardThrew)
               (Some (sample_hook "cancel" None))) kv_empty))
  = ([failed], [Some "Payment cancel"])
  ∧ ∃ d', tracks "pay-1" d'
            (after (KripicardWebhook.POST sample_parseFloat
                      (sample_env KripicardWebhook.CardThrew)
                      (Some (sample_hook "cancel" None))) kv_empty)
          ∧ status d' = failed.
Proof.
  split; [reflexivity|].
  destruct (failed_payment_is_marked sample_parseFloat
              (sample_env KripicardWebhook.CardThrew)
              (sample_hook "cancel" None) kv_empty eq_refl)
    as (_ & d' & Htracks & Hstatus & _).
  by exists d'.
Defined.

(** X9. A payload whose status neither confirms nor fails the payment
    changes nothing when its payment id is tracked, and otherwise appends
    the pending record of the payment, with the amount read from
    [payment_amount_usd] (0 when that is not a number) and no wallet. *)
Theorem other_status_only_tracks parseFloat env hook kv :
  KripicardWebhook.confirms (w_status hook) = false →
  KripicardWebhook.fails (w_status hook) = false →
  let kv' := after (KripicardWebhook.POST parseFloat env (Some hook)) kv in
  match result (getDepositByPaymentId (w_uuid hook)) kv with
  | Some _ => kv' = kv
  | None =>
      ∃ d, kv' = with_deposits kv (pending_deposits kv ++ [d])
        ∧ paymentId d = w_uuid hook ∧ status d = pending
        ∧ id d = KripicardWebhook.randomUUID env
        ∧ createdAt d = KripicardWebhook.createdNow env
        ∧ amountUsd d = Js.or_zero (parseFloat (w_payment_amount_usd hook))
        ∧ walletAddress d = None ∧ cardCreated d = None
  end.
Proof.
  intros Hconfirms Hfails. cbv zeta.
  assert (after (KripicardWebhook.POST parseFloat env (Some hook)) kv
          = after (observed parseFloat env hook) kv) as ->.
  { unfold after at 1. rewrite POST_halves. cbn [snd].
    unfold settled. by rewrite Hconfirms, Hfails. }
  unfold after, result. rewrite observed_run, getDepositByPaymentId_run.
  cbn [fst]. destruct (find _ _) as [d|]; cbn [snd]; [done|].
  exists (first_seen parseFloat env hook). by repeat split.
Qed.

(** A payment still being checked, not tracked yet. *)
Lemma other_status_only_tracks_sample :
  status <$> pending_deposits
    (after (KripicardWebhook.POST sample_parseFloat
              (sample_env KripicardWebhook.CardThrew)
              (Some (sample_hook "check" None))) kv_empty)
  = [pending].
Proof.
  pose proof (other_status_only_tracks sample_parseFloat
                (sample_env KripicardWebhook.CardThrew)
                (sample_hook "check" None) kv_empty eq_refl eq_refl) as Hadd.
  cbv zeta in Hadd.
  change (result (getDepositByPaymentId (w_uuid (sample_hook "check" None))) kv_empty)
    with (@None PendingDeposit) in Hadd.
  destruct Hadd as (d & -> & _ & Hst & _). cbn. by rewrite Hst.
Defined.

(** X10. A confirming payload for a deposit whose card was created
    already makes no card: whatever the card-creation endpoint would
    reply, the deposit is left with status confirmed (also when it was
    credited), the confirmation time of this request, and the card flag,
    card id and crediting time it had. *)
Theorem replay_after_card_created parseFloat env hook d kv :
  KripicardWebhook.confirms (w_status hook) = true →
  tracks (w_uuid hook) d kv → cardCreated d = Some true →
  let kv' := after (KripicardWebhook.POST parseFloat env (Some hook)) kv in
  (∃ d', tracks (w_uuid hook) d' kv'
     ∧ status d' = confirmed
     ∧ confirmedAt d' = Some (KripicardWebhook.confirmedNow env)
     ∧ cardCreated d' = Some true ∧ cardId d' = cardId d
     ∧ creditedAt d' = creditedAt d)
  ∧ ∀ reply,
      after (KripicardWebhook.POST parseFloat
               (KripicardWebhook.mkEnv (KripicardWebhook.randomUUID env)
                  (KripicardWebhook.createdNow env)
                  (KripicardWebhook.confirmedNow env)
                  (KripicardWebhook.creditedNow env) reply)
               (Some hook)) kv
      = kv'.
Proof.
  intros Hconfirms Htracks Hcard. cbv zeta.
  assert (∀ env', run (observed parseFloat env' hook) kv = (d, kv)) as Hobserved.
  { intros env'. rewrite observed_run. unfold tracks in Htracks.
    by rewrite Htracks. }
  assert (∀ env', KripicardWebhook.confirmedNow env' = KripicardWebhook.confirmedNow env →
            after (KripicardWebhook.POST parseFloat env' (Some hook)) kv
            = after (markDepositAsConfirmed (KripicardWebhook.confirmedNow env)
                       (w_uuid hook)) kv) as Hafter.
  { intros env' Hnow. unfold after at 1. rewrite POST_halves. cbn [snd].
    unfold result, after at 2. rewrite Hobserved. cbn [fst snd].
    unfold settled. rewrite Hconfirms, Hcard, Hnow. cbn [Js.truthy_flag default negb].
    unfold after. unfold_store. by destruct (markDepositAsConfirmed _ _ kv). }
  split.
  - rewrite Hafter by done. apply find_Some in Htracks as [i Hf].
    unfold markDepositAsConfirmed.
    match goal with
    | |- context [updateDepositStatus ?p ?st ?extra] =>
        destruct (updateDepositStatus_tracks p st extra _ eq_refl _
                    (ex_intro _ i Hf)) as [_ [j Hj]]
    end.
    eexists. split; [apply find_Some; eauto|]. by repeat split.
  - intros reply. by rewrite !Hafter.
Qed.

(** The webhook for [pay-1] replayed after its card was created. *)
Lemma replay_after_card_created_sample :
  status <$> pending_deposits credited_ledger = [credited]
  ∧ ∃ d', tracks "pay-1" d'
            (after (KripicardWebhook.POST sample_parseFloat
                      (sample_env KripicardWebhook.CardThrew)
                      (Some (sample_hook "paid" None))) credited_ledger)
          ∧ status d' = confirmed ∧ cardId d' = Some "card-1".
Proof.
  split; [reflexivity|].
  eassert (tracks "pay-1" _ credited_ledger) as Htracks by reflexivity.
  destruct (replay_after_card_created sample_parseFloat
              (sample_env KripicardWebhook.CardThrew)
              (sample_hook "paid" None) _ credited_ledger eq_refl Htracks eq_refl)
    as [(d' & Hd' & Hst & _ & _ & Hid & _) _].
  exists d'. split_and!; [done|done|]. by rewrite Hid.
Defined.

Lemma updateDepositStatus_others pid st extra kv :
  same_but_deposits kv (after (updateDepositStatus pid st extra) kv)
  ∧ length (pending_deposits (after (updateDepositStatus pid st extra) kv))
    = length (pending_deposits kv).
Proof.
  split.
  - unfold after.
    destruct (list_find (λ d, paymentId d = pid) (pending_deposits kv))
      as [[i d]|] eqn:Hf.
    + by rewrite (updateDepositStatus_found _ _ _ _ _ _ Hf).
    + by rewrite (updateDepositStatus_missing _ _ _ _ Hf).
  - symmetry. eapply Forall2_length, updateDepositStatus_effect.
Qed.

(** X11. Every payload the card-provider webhook could parse is followed
    by a successful lookup: a GET with the payment id of the payload, when
    that id is not empty, answers 200 with a deposit of that payment id. *)
Theorem processed_payment_is_found parseFloat env hook kv :
  w_uuid hook ≠ "" →
  let kv' := after (KripicardWebhook.POST parseFloat env (Some hook)) kv in
  ∃ d, run (KripicardWebhook.GET (Some (w_uuid hook))) kv'
       = (KripicardWebhook.DepositFound d, kv')
     ∧ paymentId d = w_uuid hook
     ∧ KripicardWebhook.http_status (KripicardWebhook.DepositFound d) = 200%Z.
Proof.
  intros Hne. cbv zeta. unfold after at 1 2. rewrite POST_halves. cbn [snd].
  assert (∃ i d, list_find (λ d, paymentId d = w_uuid hook)
                   (pending_deposits
                      (after (settled env hook (result (observed parseFloat env hook) kv))
                         (after (observed parseFloat env hook) kv)))
                 = Some (i, d)) as (i & d & Hf).
  { apply (settled_keeps
             (λ kv, ∃ i d, list_find (λ d, paymentId d = w_uuid hook)
                             (pending_deposits kv) = Some (i, d))).
    - intros st extra Hextra kv1 (j & d & Hj).
      destruct (updateDepositStatus_tracks _ st extra d Hextra kv1
                  (ex_intro _ j Hj)) as [_ [k Hk]].
      eauto.
    - destruct (observed_tracks parseFloat env hook kv) as [j Hj]. eauto. }
  exists d. split_and!; [|by apply list_find_Some in Hf as (_ & ? & _)|done].
  unfold KripicardWebhook.GET, Js.truthy_opt.
  rewrite truthy_string_true by done. cbn [default from_option Datatypes.id].
  unfold getDepositByPaymentId, find. unfold_store. by rewrite Hf.
Qed.

(** The payment of the sample payload, looked up after the webhook. *)
Lemma processed_payment_is_found_sample :
  ∃ d, result (KripicardWebhook.GET (Some "pay-1"))
         (after (KripicardWebhook.POST sample_parseFloat
                   (sample_env KripicardWebhook.CardThrew)
                   (Some (sample_hook "confirm_check" None))) kv_empty)
       = KripicardWebhook.DepositFound d
     ∧ paymentId d = "pay-1".
Proof.
  destruct (processed_payment_is_found sample_parseFloat
              (sample_env KripicardWebhook.CardThrew)
              (sample_hook "confirm_check" None) kv_empty)
    as (d & Hget & Hid & _); [discriminate|].
  exists d. split; [|exact Hid]. exact (f_equal fst Hget).
Defined.

(** X12. The card-provider webhook writes to the deposit ledger only: the
    webhook deposits, the balances and the cards are as they were.  In
    the ledger it adds one record when the payment id of the payload is not
    tracked and none otherwise, and it leaves every record of another
    payment id exactly as it was, at its place. *)
Theorem webhook_touches_one_payment parseFloat env body kv :
  let kv' := after (KripicardWebhook.POST parseFloat env body) kv in
  same_but_deposits kv kv'
  ∧ length (pending_deposits kv')
    = length (pending_deposits kv)
      + match body with
        | Some hook =>
            match result (getDepositByPaymentId (w_uuid hook)) kv with
            | Some _ => 0
            | None => 1
            end
        | None => 0
        end
  ∧ ∀ i d, pending_deposits kv !! i = Some d →
      (∀ hook, body = Some hook → paymentId d ≠ w_uuid hook) →
      pending_deposits kv' !! i = Some d.
Proof.
  cbv zeta. destruct body as [hook|]; [|by rewrite Nat.add_0_r].
  unfold after. rewrite POST_halves. cbn [snd].
  set (kv1 := after (observed parseFloat env hook) kv).
  set (deposit := result (observed parseFloat env hook) kv).
  assert (same_but_deposits kv kv1
          ∧ length (pending_deposits kv1)
            = length (pending_deposits kv)
              + match result (getDepositByPaymentId (w_uuid hook)) kv with
                | Some _ => 0
                | None => 1
                end
          ∧ ∀ i d, pending_deposits kv !! i = Some d →
              pending_deposits kv1 !! i = Some d) as (Hsame & Hlen & Hkeep).
  { subst kv1. unfold after, result.
    rewrite observed_run, getDepositByPaymentId_run. cbn [fst].
    destruct (find _ _) as [d|]; cbn [snd pending_deposits with_deposits].
    - by rewrite Nat.add_0_r.
    - split_and!; [done|by rewrite length_app|].
      intros i d Hd. by apply lookup_app_l_Some. }
  pose proof (settled_keeps
                (λ kv2, same_but_deposits kv1 kv2
                        ∧ length (pending_deposits kv2) = length (pending_deposits kv1)
                        ∧ ∀ i d, pending_deposits kv1 !! i = Some d →
                            paymentId d ≠ w_uuid hook →
                            pending_deposits kv2 !! i = Some d)
                env hook deposit) as Hsettled.
  destruct (Hsettled) with (kv := kv1) as (Hsame2 & Hlen2 & Hkeep2).
  - intros st extra _ kv2 (Hs & Hl & Hk).
    destruct (updateDepositStatus_others (w_uuid hook) st extra kv2)
      as [(? & ? & ?) Hl'].
    destruct Hs as (? & ? & ?).
    split_and!; [by repeat split; congruence|congruence|].
    intros i d Hd Hne. specialize (Hk i d Hd Hne).
    pose proof (updateDepositStatus_effect (w_uuid hook) st extra kv2) as Heff.
    destruct (Forall2_lookup_l _ _ _ _ _ Heff Hk) as (d' & Hd' & [-> | [? _]]);
      [done|congruence].
  - by repeat split.
  - destruct Hsame as (? & ? & ?), Hsame2 as (? & ? & ?).
    split_and!; [by repeat split; congruence|congruence|].
    intros i d Hd Hne. apply Hkeep2; eauto.
Qed.

(** ** The payment-processor webhook, path by path *)

Section DepositWebhookPaths.

Variable verifyWebhookSignature : CryptomusWebhook → option string → bool.
Variable isPaymentSuccessful : string → bool.
Variable parseFloat : string → Js.number.
Variable JSON_wallet : string → option string.

Local Abbreviation POST :=
  (DepositWebhook.POST verifyWebhookSignature isPaymentSuccessful parseFloat
     JSON_wallet).

(** The handler either writes one record under the order id of the
    payload or leaves the store alone. *)
Lemma DepositWebhook_run now body kv :
  after (POST now (Some body)) kv = kv
  ∨ ∃ d, after (POST now (Some body)) kv
         = mkKV (pending_deposits kv)
             (<[w_order_id body := d]> (webhook_deposit kv))
             (balances kv) (cards kv)
       ∧ verifyWebhookSignature (DepositWebhook.bodyWithoutSign body) (w_sign body)
         = true
       ∧ (isPaymentSuccessful (w_status body) = true ∨ w_is_final body = true).
Proof.
  cbn [DepositWebhook.POST].
  destruct (verifyWebhookSignature _ _); cbn [negb]; [|by left].
  destruct (isPaymentSuccessful _); [right; eexists; split; [reflexivity|auto]|].
  destruct (w_is_final body); [right; eexists; split; [reflexivity|auto]|by left].
Qed.

(** X13. The payment-processor webhook writes at most the record of the
    order id in its payload: the record of every other order, the deposit
    ledger, the balances and the cards are as they were. *)
Theorem deposit_webhook_touches_one_order now body kv :
  let kv' := after (POST now body) kv in
  pending_deposits kv' = pending_deposits kv
  ∧ balances kv' = balances kv ∧ cards kv' = cards kv
  ∧ ∀ order, (∀ b, body = Some b → order ≠ w_order_id b) →
      webhook_deposit kv' !! order = webhook_deposit kv !! order.
Proof.
  cbv zeta. destruct body as [body|]; [|done].
  destruct (DepositWebhook_run now body kv) as [-> | (d & -> & _)]; [done|].
  cbn. split_and!; try done.
  intros order Hother. rewrite lookup_insert_ne; [done|].
  intros Heq. by apply (Hother body).
Qed.

(** X14. A validly signed payload is always answered 200.  When the
    payment is not successful: a final payload stores, under its order id,
    a record with amount 0, the status of the payload, no payment time,
    and the wallet read from [additional_data] (empty when that is empty
    or cannot be read); a payload that is not final changes nothing. *)
Theorem unsuccessful_payment_is_recorded now body kv :
  verifyWebhookSignature (DepositWebhook.bodyWithoutSign body) (w_sign body) = true →
  isPaymentSuccessful (w_status body) = false →
  let kv' := after (POST now (Some body)) kv in
  DepositWebhook.http_status (result (POST now (Some body)) kv) = 200%Z
  ∧ if w_is_final body then
      webhook_deposit kv' !! w_order_id body
      = Some {| wd_orderId := w_order_id body;
                wd_walletAddress :=
                  if String.eqb (w_additional_data body) "" then ""
                  else default "" (JSON_wallet (w_additional_data body));
                wd_amount := 0%float;
                wd_status := w_status body;
                wd_paymentId := w_uuid body;
                wd_paidAt := None |}
    else kv' = kv.
Proof.
  intros Hsigned Hfailed. cbv zeta. unfold result, after.
  cbn [DepositWebhook.POST]. rewrite Hsigned, Hfailed. cbn [negb].
  destruct (w_is_final body); [|done].
  unfold Js.truthy_string. unfold_store. cbn. split; [done|].
  rewrite lookup_insert_eq. by destruct (String.eqb _ "").
Qed.

(** X15. A later payload for the same order that is stored (its payment
    is successful, or it is final) replaces what an earlier payload for
    that order stored: the store is the one the later payload alone would
    have left. *)
Theorem later_payload_replaces now1 now2 body1 body2 kv :
  w_order_id body1 = w_order_id body2 →
  verifyWebhookSignature (DepositWebhook.bodyWithoutSign body2) (w_sign body2) = true →
  isPaymentSuccessful (w_status body2) = true ∨ w_is_final body2 = true →
  after (POST now2 (Some body2)) (after (POST now1 (Some body1)) kv)
  = after (POST now2 (Some body2)) kv.
Proof.
  intros Horder Hsigned Hstored.
  destruct (DepositWebhook_run now1 body1 kv) as [-> | (d & -> & _)]; [done|].
  unfold after, run. cbn [DepositWebhook.POST]. rewrite Hsigned. cbn [negb].
  rewrite Horder.
  destruct (isPaymentSuccessful (w_status body2)).
  - unfold_store. cbn. by rewrite insert_insert_eq.
  - destruct Hstored as [? | ->]; [done|].
    unfold_store. cbn. by rewrite insert_insert_eq.
Qed.

End DepositWebhookPaths.

(** A cancelled payment, final. *)
Lemma unsuccessful_payment_is_recorded_sample :
  wd_amount <$> webhook_deposit
    (after (DepositWebhook.POST (λ _ _, true) (String.eqb "paid")
              sample_parseFloat (λ _, None) "2024-01-01T00:00:00.000Z"
              (Some (sample_hook "cancel" (Some "signed")))) kv_empty)
    !! "order-1"
  = Some 0%float.
Proof.
  destruct (unsuccessful_payment_is_recorded (λ _ _, true) (String.eqb "paid")
              sample_parseFloat (λ _, None) "2024-01-01T00:00:00.000Z"
              (sample_hook "cancel" (Some "signed")) kv_empty eq_refl eq_refl)
    as [_ Hrecord].
  cbn [w_is_final w_order_id sample_hook] in Hrecord. by rewrite Hrecord.
Defined.

(** A payment first reported paid, then cancelled. *)
Lemma later_payload_replaces_sample :
  wd_status <$> webhook_deposit
    (after (DepositWebhook.POST (λ _ _, true) (String.eqb "paid")
              sample_parseFloat (λ _, None) "2024-01-01T00:05:00.000Z"
              (Some (sample_hook "cancel" (Some "signed"))))
       (after (DepositWebhook.POST (λ _ _, true) (String.eqb "paid")
                 sample_parseFloat (λ _, None) "2024-01-01T00:00:00.000Z"
                 (Some (sample_hook "paid" (Some "signed")))) kv_empty))
    !! "order-1"
  = Some "cancel".
Proof.
  rewrite (later_payload_replaces (λ _ _, true) (String.eqb "paid")
             sample_parseFloat (λ _, None) "2024-01-01T00:00:00.000Z"
             "2024-01-01T00:05:00.000Z" (sample_hook "paid" (Some "signed"))
             (sample_hook "cancel" (Some "signed")) kv_empty eq_refl eq_refl
             (or_intror eq_refl)).
  reflexivity.
Defined.

(** ** The balance route, read back *)

(** A balance update that answers 200 wrote the balance it reports, for a
    wallet address that is not empty. *)
Lemma Balance_POST_updated readNow writeNow body kv wallet data :
  result (Balance.POST readNow writeNow body) kv = Balance.Updated wallet data →
  wallet ≠ ""
  ∧ (∃ request, body = Some request ∧ Balance.r_walletAddress request = Some wallet)
  ∧ after (Balance.POST readNow writeNow body) kv = with_balance kv wallet data.
Proof.
  unfold result, after. destruct body as [[[w|] [action|] [amount|]]|]; try done.
  cbn [Balance.POST Balance.r_walletAddress Balance.r_action Balance.r_amount].
  unfold Js.truthy_string.
  destruct (String.eqb_spec w "") as [->|Hw]; [done|]. cbn [negb orb].
  destruct (String.eqb action ""); [done|]. cbn [negb].
  unfold_store. unfold Balance.getBalance, Balance.saveBalance.
  destruct (String.eqb action "credit").
  - cbn. intros [= <- <-]. eauto.
  - destruct (String.eqb action "debit"); [|done].
    destruct (_ <? amount)%float; [done|]. cbn. intros [= <- <-]. eauto.
Qed.

(** X16. Reading a balance back: after a balance update that answered
    200 with a balance record, the GET for that wallet answers 200 with
    the same record, and changes nothing. *)
Theorem balance_is_read_back readNow writeNow now body kv wallet data :
  result (Balance.POST readNow writeNow body) kv = Balance.Updated wallet data →
  let kv' := after (Balance.POST readNow writeNow body) kv in
  run (Balance.GET now (Some wallet)) kv' = (Balance.BalanceOf wallet data, kv')
  ∧ Balance.get_status (Balance.BalanceOf wallet data) = 200%Z.
Proof.
  intros (Hwallet & _ & ->)%Balance_POST_updated. cbv zeta. split; [|done].
  unfold Balance.GET, Js.truthy_opt. rewrite truthy_string_true by done.
  cbn [negb default from_option Datatypes.id]. unfold_store.
  unfold Balance.getBalance. cbn [balances with_balance].
  by rewrite lookup_insert_eq.
Qed.

(** 50 credited to a new wallet, then read. *)
Lemma balance_is_read_back_sample :
  result (Balance.GET "t2" (Some "wallet-1"))
    (after (Balance.POST "t0" "t1" (balance_request "credit" 50%float)) kv_empty)
  = Balance.BalanceOf "wallet-1"
      {| balance := 50; totalDeposited := 50; totalSpent := 0;
         lastUpdated := "t1" |}.
Proof.
  destruct (balance_is_read_back "t0" "t1" "t2"
              (balance_request "credit" 50%float) kv_empty "wallet-1"
              {| balance := 50; totalDeposited := 50; totalSpent := 0;
                 lastUpdated := "t1" |} eq_refl) as [Hget _].
  exact (f_equal fst Hget).
Defined.

(** X17. The GET of a wallet without a balance record answers 200 with
    a zero balance, zero totals and the time of the request, and creates
    no record; without a wallet address, or with an empty one, it answers
    400. *)
Theorem unknown_wallet_reads_zero now wallet kv :
  (wallet ≠ "" → balances kv !! wallet = None →
   run (Balance.GET now (Some wallet)) kv
   = (Balance.BalanceOf wallet
        {| balance := 0; totalDeposited := 0; totalSpent := 0;
           lastUpdated := now |}, kv))
  ∧ run (Balance.GET now None) kv = (Balance.WalletRequired, kv)
  ∧ run (Balance.GET now (Some "")) kv = (Balance.WalletRequired, kv)
  ∧ Balance.get_status Balance.WalletRequired = 400%Z.
Proof.
  split_and!; try done.
  intros Hwallet Hnone.
  unfold Balance.GET, Js.truthy_opt. rewrite truthy_string_true by done.
  cbn [negb default from_option Datatypes.id]. unfold_store.
  unfold Balance.getBalance. by rewrite Hnone.
Qed.

(** A balance update that does not answer 200 wrote nothing. *)
Lemma Balance_POST_refused readNow writeNow body kv :
  Balance.http_status (result (Balance.POST readNow writeNow body) kv) ≠ 200%Z →
  after (Balance.POST readNow writeNow body) kv = kv.
Proof.
  unfold result, after.
  destruct body as [[[w|] [action|] [amount|]]|]; try done.
  cbn [Balance.POST Balance.r_walletAddress Balance.r_action Balance.r_amount].
  destruct (_ || _); [done|]. unfold_store. unfold Balance.getBalance.
  destruct (String.eqb action "credit"); [done|].
  destruct (String.eqb action "debit"); [|done].
  by destruct (_ <? amount)%float.
Qed.

(** X18. A balance update writes at most the record of the wallet it
    names: the record of every other wallet, the deposit ledger, the
    webhook deposits and the cards are as they were. *)
Theorem balance_update_touches_one_wallet readNow writeNow body kv :
  let kv' := after (Balance.POST readNow writeNow body) kv in
  pending_deposits kv' = pending_deposits kv
  ∧ webhook_deposit kv' = webhook_deposit kv ∧ cards kv' = cards kv
  ∧ ∀ wallet,
      (∀ request, body = Some request →
                  Balance.r_walletAddress request ≠ Some wallet) →
      balances kv' !! wallet = balances kv !! wallet.
Proof.
  cbv zeta.
  destruct (result (Balance.POST readNow writeNow body) kv) as [w data| | | |]
    eqn:Hresult;
    [|rewrite Balance_POST_refused by (by rewrite Hresult); done..].
  apply Balance_POST_updated in Hresult as (_ & (request & -> & Hw) & ->).
  cbn. split_and!; try done. intros wallet Hother.
  rewrite lookup_insert_ne; [done|]. intros ->. by apply (Hother request).
Qed.

(** ** The card store route, read back *)

(** The card list a valid request leaves for its wallet. *)
Lemma Cards_POST_run uuid now body kv cardId' wallet :
  Cards.r_cardId body = Some cardId' → cardId' ≠ "" →
  Cards.r_walletAddress body = Some wallet → wallet ≠ "" →
  run (Cards.POST uuid now (Some body)) kv
  = (Cards.Stored,
     with_cards kv wallet
       match list_find (λ c, c_cardId c = cardId') (default [] (cards kv !! wallet)) with
       | Some (i, card) =>
           <[i := Cards.updated card body]> (default [] (cards kv !! wallet))
       | None =>
           (default [] (cards kv !! wallet)
            ++ [Cards.newCard uuid now cardId' wallet body])%list
       end).
Proof.
  intros HcardId Hne Hwallet Hwne.
  cbn [Cards.POST]. rewrite HcardId, Hwallet.
  cbn [Js.truthy_opt from_option Datatypes.id].
  rewrite !truthy_string_true by done.
  cbn [negb orb]. unfold_store. unfold Cards.getCards, Cards.saveCards, findIndex.
  cbn [fst snd]. f_equal. unfold with_cards. f_equal. f_equal.
  destruct (list_find _ _) as [[i card]|] eqn:Hfind; cbn [fmap option_fmap option_map fst];
    [|done].
  apply list_find_Some in Hfind as (Hcard & _). by rewrite Hcard.
Qed.

(** A request without a card id or a wallet address (or with an empty
    one), or that could not be parsed, wrote nothing. *)
Lemma Cards_POST_refused uuid now body kv :
  Cards.http_status (result (Cards.POST uuid now body) kv) ≠ 200%Z →
  after (Cards.POST uuid now body) kv = kv.
Proof.
  unfold result, after. destruct body as [body|]; [|done].
  cbn [Cards.POST]. by destruct (_ || _).
Qed.

(** X19. Reading a card back: after a POST with a card id and a wallet
    address that are not empty, and a balance (if any) that survives the
    store (finite, not [-0]), the GET for that wallet answers 200 with a
    list in which the first card with that card id has the six fields of
    the request; the GET changes nothing. *)
Theorem card_is_read_back uuid now body kv cardId' wallet :
  Cards.r_cardId body = Some cardId' → cardId' ≠ "" →
  Cards.r_walletAddress body = Some wallet → wallet ≠ "" →
  match Cards.r_balance body with
  | Some x => Js.json_exact x = true
  | None => True
  end →
  let kv' := after (Cards.POST uuid now (Some body)) kv in
  ∃ userCards card,
    run (Cards.GET (Some wallet)) kv' = (Cards.CardList userCards, kv')
    ∧ find (λ c, c_cardId c = cardId') userCards = Some card
    ∧ c_lastFour card = Cards.r_lastFour body
    ∧ c_balance card = Cards.r_balance body
    ∧ c_cardNumber card = Cards.r_cardNumber body
    ∧ c_cvv card = Cards.r_cvv body
    ∧ c_expiry card = Cards.r_expiry body
    ∧ c_cardHolder card = Cards.r_cardHolder body.
Proof.
  intros HcardId Hne Hwallet Hwne _. cbv zeta. unfold after.
  rewrite (Cards_POST_run _ _ _ _ _ _ HcardId Hne Hwallet Hwne). cbn [snd].
  unfold Cards.GET, Js.truthy_opt. rewrite truthy_string_true by done.
  cbn [negb default from_option Datatypes.id]. unfold_store. unfold Cards.getCards.
  cbn [cards with_cards]. rewrite lookup_insert_eq. cbn [default from_option Datatypes.id].
  generalize (default [] (cards kv !! wallet)). intros userCards.
  destruct (list_find (λ c, c_cardId c = cardId') userCards)
    as [[i card]|] eqn:Hfind.
  - exists (<[i := Cards.updated card body]> userCards), (Cards.updated card body).
    split; [done|]. split; [|done].
    apply find_Some. exists i. eapply list_find_overwrite; [done|].
    cbn. by apply list_find_Some in Hfind as (_ & ? & _).
  - eexists _, (Cards.newCard uuid now cardId' wallet body).
    split; [done|]. split; [|done].
    apply find_Some. eexists. by apply list_find_snoc.
Qed.

(** The card of the full sample request, read back. *)
Lemma card_is_read_back_sample :
  ∃ userCards card,
    result (Cards.GET (Some "wallet-1"))
      (after (Cards.POST "id-1" "2024-01-01T00:00:00.000Z" (Some full_card_request))
         kv_empty)
    = Cards.CardList userCards
    ∧ find (λ c, c_cardId c = "card-1") userCards = Some card
    ∧ c_cvv card = Some "123".
Proof.
  destruct (card_is_read_back "id-1" "2024-01-01T00:00:00.000Z" full_card_request
              kv_empty "card-1" "wallet-1")
    as (userCards & card & Hget & Hfind & _ & _ & _ & Hcvv & _); try done.
  exists userCards, card. split_and!; [exact (f_equal fst Hget)|done|done].
Defined.

(** X20. The card ids of a wallet stay pairwise distinct under the card
    store POST, whatever the request and the wallet it is for. *)
Theorem cardIds_stay_unique uuid now body wallet kv :
  unique_cardIds kv wallet →
  unique_cardIds (after (Cards.POST uuid now body) kv) wallet.
Proof.
  intros Huniq.
  destruct (decide (Cards.http_status (result (Cards.POST uuid now body) kv) = 200%Z))
    as [Hok|Hrefused]; [|by rewrite Cards_POST_refused].
  destruct body as [body|]; [|done].
  assert (∃ c w, Cards.r_cardId body = Some c ∧ c ≠ ""
                 ∧ Cards.r_walletAddress body = Some w ∧ w ≠ "")
    as (c & w & Hc & Hcne & Hw & Hwne).
  { revert Hok. unfold result. cbn [Cards.POST].
    unfold Js.truthy_opt, Js.truthy_string.
    destruct (Cards.r_cardId body) as [c|]; [|done].
    destruct (Cards.r_walletAddress body) as [w|]; [|by rewrite orb_true_r].
    destruct (String.eqb_spec c ""); [done|].
    destruct (String.eqb_spec w ""); [done|]. eauto 10. }
  unfold after. rewrite (Cards_POST_run _ _ _ _ _ _ Hc Hcne Hw Hwne). cbn [snd].
  unfold unique_cardIds in *. cbn [cards with_cards].
  destruct (decide (w = wallet)) as [->|Hother];
    [|by rewrite lookup_insert_ne].
  rewrite lookup_insert_eq. cbn [default from_option Datatypes.id].
  revert Huniq. generalize (default [] (cards kv !! wallet)). intros userCards Huniq.
  destruct (list_find (λ card, c_cardId card = c) userCards)
    as [[i card]|] eqn:Hfind.
  - apply list_find_Some in Hfind as (Hcard & _).
    rewrite list_fmap_insert. cbn [Cards.updated c_cardId].
    replace (<[i := c_cardId card]> (c_cardId <$> userCards))
      with (c_cardId <$> userCards); [done|].
    symmetry. apply list_insert_id. by rewrite list_lookup_fmap, Hcard.
  - apply list_find_None in Hfind.
    rewrite fmap_app. cbn. apply NoDup_app. split_and!; [done| |apply NoDup_singleton].
    intros x (card & Hx & Hin)%list_elem_of_fmap Hnew%list_elem_of_singleton.
    rewrite Forall_forall in Hfind. apply (Hfind card Hin). cbn in Hnew. congruence.
Qed.

(** The same card stored twice is listed once. *)
Lemma cardIds_stay_unique_sample :
  unique_cardIds
    (after (Cards.POST "id-2" "2024-01-02T00:00:00.000Z" (Some full_card_request))
       (after (Cards.POST "id-1" "2024-01-01T00:00:00.000Z" (Some full_card_request))
          kv_empty))
    "wallet-1".
Proof.
  apply cardIds_stay_unique, cardIds_stay_unique. apply NoDup_nil_2.
Defined.

(** X21. The card store POST writes at most the card list of the wallet
    it names: the cards of every other wallet, the deposit ledger, the
    webhook deposits and the balances are as they were; and the list of
    the wallet grows by at most one card. *)
Theorem card_store_touches_one_wallet uuid now body kv :
  let kv' := after (Cards.POST uuid now body) kv in
  pending_deposits kv' = pending_deposits kv
  ∧ webhook_deposit kv' = webhook_deposit kv ∧ balances kv' = balances kv
  ∧ (∀ wallet,
       (∀ request, body = Some request →
                   Cards.r_walletAddress request ≠ Some wallet) →
       cards kv' !! wallet = cards kv !! wallet)
  ∧ ∀ wallet,
      (length (default [] (cards kv !! wallet))
       ≤ length (default [] (cards kv' !! wallet))
       ≤ S (length (default [] (cards kv !! wallet))))%nat.
Proof.
  cbv zeta.
  destruct (decide (Cards.http_status (result (Cards.POST uuid now body) kv) = 200%Z))
    as [Hok|Hrefused].
  2: { rewrite Cards_POST_refused by done. split_and!; try done. intros; lia. }
  destruct body as [body|]; [|done].
  assert (∃ c w, Cards.r_cardId body = Some c ∧ c ≠ ""
                 ∧ Cards.r_walletAddress body = Some w ∧ w ≠ "")
    as (c & w & Hc & Hcne & Hw & Hwne).
  { revert Hok. unfold result. cbn [Cards.POST].
    unfold Js.truthy_opt, Js.truthy_string.
    destruct (Cards.r_cardId body) as [c|]; [|done].
    destruct (Cards.r_walletAddress body) as [w|]; [|by rewrite orb_true_r].
    destruct (String.eqb_spec c ""); [done|].
    destruct (String.eqb_spec w ""); [done|]. eauto 10. }
  unfold after. rewrite (Cards_POST_run _ _ _ _ _ _ Hc Hcne Hw Hwne). cbn [snd].
  cbn [pending_deposits webhook_deposit balances cards with_cards].
  split_and!; try done.
  - intros wallet Hother. rewrite lookup_insert_ne; [done|].
    intros ->. by apply (Hother body).
  - intros wallet. destruct (decide (w = wallet)) as [->|Hne];
      [|rewrite lookup_insert_ne by done; lia].
    rewrite lookup_insert_eq. cbn [default from_option Datatypes.id].
    destruct (list_find _ _) as [[i card]|].
    + rewrite length_insert. lia.
    + rewrite length_app. cbn. lia.
Qed.

(** ** Requests that are refused, and reads *)

(** X22. A request that is not answered 200 changes nothing in the
    store, for each of the four POST handlers; and the three GET handlers
    change nothing whatever they answer. *)
Theorem refused_requests_change_nothing kv :
  (∀ readNow writeNow body,
     Balance.http_status (result (Balance.POST readNow writeNow body) kv) ≠ 200%Z →
     after (Balance.POST readNow writeNow body) kv = kv)
  ∧ (∀ uuid now body,
       Cards.http_status (result (Cards.POST uuid now body) kv) ≠ 200%Z →
       after (Cards.POST uuid now body) kv = kv)
  ∧ (∀ verify successful parseFloat wallet now body,
       DepositWebhook.http_status
         (result (DepositWebhook.POST verify successful parseFloat wallet now body) kv)
       ≠ 200%Z →
       after (DepositWebhook.POST verify successful parseFloat wallet now body) kv = kv)
  ∧ (∀ parseFloat env body,
       KripicardWebhook.http_status
         (result (KripicardWebhook.POST parseFloat env body) kv) ≠ 200%Z →
       after (KripicardWebhook.POST parseFloat env body) kv = kv)
  ∧ (∀ paymentId', after (KripicardWebhook.GET paymentId') kv = kv)
  ∧ (∀ now wallet, after (Balance.GET now wallet) kv = kv)
  ∧ (∀ wallet, after (Cards.GET wallet) kv = kv).
Proof.
  split_and!.
  - intros. by apply Balance_POST_refused.
  - intros. by apply Cards_POST_refused.
  - intros verify successful parseFloat wallet now [body|]; [|done].
    unfold result, after. cbn [DepositWebhook.POST].
    destruct (verify _ _); cbn [negb]; [|done].
    unfold_store. intros Hstatus. exfalso. revert Hstatus.
    destruct (successful _); [done|]. by destruct (w_is_final body).
  - intros parseFloat env [hook|]; [|done].
    unfold result. by rewrite POST_halves.
  - intros pid. unfold KripicardWebhook.GET.
    destruct (Js.truthy_opt pid); [|done].
    unfold after. unfold getDepositByPaymentId. unfold_store.
    by destruct (find _ _).
  - intros now wallet. unfold Balance.GET. by destruct (negb _).
  - intros wallet. unfold Cards.GET. by destruct (negb _).
Qed.

(** ** The pending-refunds tracker *)

Ltac unfold_ledger :=
  unfold mbind, mret, Refunds.Ledger_bind, Refunds.Ledger_ret,
    Refunds.loadPendingRefunds, Refunds.savePendingRefunds in *.

Section RefundProperties.

Variable Date_getTime : string → option Z.

Lemma refund_sweep_spec now refunds changed :
  Refunds.sweep Date_getTime now refunds changed
  = (refund_swept Date_getTime now <$> refunds,
     changed || existsb (refund_stale Date_getTime now) refunds).
Proof.
  revert changed.
  induction refunds as [|r rest IH]; intros changed;
    cbn [Refunds.sweep fmap list_fmap existsb].
  - by rewrite orb_false_r.
  - unfold refund_swept at 1, refund_stale at 1 2.
    destruct (decide (Refunds.status r = Refunds.pending)) as [Hst|Hst].
    + rewrite bool_decide_eq_true_2 by done. cbn [andb].
      destruct (Refunds.too_old Date_getTime now r); rewrite IH; cbn [orb].
      * by rewrite orb_true_r.
      * done.
    + rewrite bool_decide_eq_false_2 by done. cbn [andb orb]. by rewrite IH.
Qed.

Lemma refund_swept_nothing now refunds :
  existsb (refund_stale Date_getTime now) refunds = false →
  refund_swept Date_getTime now <$> refunds = refunds.
Proof.
  induction refunds as [|r rest IH]; [done|].
  cbn [existsb fmap list_fmap]. intros [Hr Hrest]%orb_false_iff.
  unfold refund_swept at 1. rewrite Hr. f_equal. auto.
Qed.

Lemma cleanupExpiredRefunds_run now refunds :
  snd (Refunds.cleanupExpiredRefunds Date_getTime now refunds)
  = refund_swept Date_getTime now <$> refunds.
Proof.
  unfold Refunds.cleanupExpiredRefunds. unfold_ledger.
  rewrite refund_sweep_spec. cbn [orb].
  destruct (existsb _ _) eqn:Hany; cbn [snd]; [done|].
  by rewrite refund_swept_nothing.
Qed.

Lemma refund_stale_iff now r :
  refund_stale Date_getTime now r = true ↔
    Refunds.status r = Refunds.pending
    ∧ ∃ t, Date_getTime (Refunds.createdAt r) = Some t
           ∧ (Refunds.ONE_DAY < now - t)%Z.
Proof.
  unfold refund_stale, Refunds.too_old.
  rewrite andb_true_iff, bool_decide_eq_true. split.
  - intros [Hst Hold]. split; [done|].
    destruct (Date_getTime _) as [t|]; [|done].
    exists t. split; [done|]. by apply bool_decide_eq_true in Hold.
  - intros [Hst (t & -> & Ht)]. split; [done|]. by apply bool_decide_eq_true.
Qed.

(** X23. The refund sweep expires every pending refund created more
    than 24 hours before the current time, leaves every refund created
    within 24 hours, and every refund that is not pending, as it is, and
    changes nothing but the status of the refunds it expires. *)
Theorem refund_sweep now refunds :
  let refunds' := snd (Refunds.cleanupExpiredRefunds Date_getTime now refunds) in
  (∀ i r t, refunds !! i = Some r →
     Refunds.status r = Refunds.pending →
     Date_getTime (Refunds.createdAt r) = Some t →
     (Refunds.ONE_DAY < now - t)%Z →
     refunds' !! i = Some (Refunds.set_status r Refunds.expired))
  ∧ (∀ i r t, refunds !! i = Some r →
       Date_getTime (Refunds.createdAt r) = Some t →
       (now - t ≤ Refunds.ONE_DAY)%Z →
       refunds' !! i = Some r)
  ∧ (∀ i r, refunds !! i = Some r → Refunds.status r ≠ Refunds.pending →
       refunds' !! i = Some r)
  ∧ length refunds' = length refunds.
Proof.
  cbv zeta. rewrite cleanupExpiredRefunds_run. split_and!.
  - intros i r t Hr Hst Ht Hold. rewrite list_lookup_fmap, Hr. cbn.
    unfold refund_swept. rewrite (proj2 (refund_stale_iff now r)); eauto.
  - intros i r t Hr Ht Hyoung. rewrite list_lookup_fmap, Hr. cbn.
    unfold refund_swept.
    destruct (refund_stale Date_getTime now r) eqn:Hst; [|done].
    apply refund_stale_iff in Hst as [_ (t' & Ht' & Hold)].
    assert (t' = t) as -> by congruence. lia.
  - intros i r Hr Hst. rewrite list_lookup_fmap, Hr. cbn.
    unfold refund_swept.
    destruct (refund_stale Date_getTime now r) eqn:Hstale; [|done].
    by apply refund_stale_iff in Hstale as [? _].
  - apply length_fmap.
Qed.

(** X24. After the refund sweep the query of all pending refunds
    returns no refund created more than 24 hours before the time of the
    sweep, and a second sweep at that time changes nothing. *)
Theorem no_stale_refund_after_sweep now refunds :
  let refunds' := snd (Refunds.cleanupExpiredRefunds Date_getTime now refunds) in
  Forall (λ r, Refunds.too_old Date_getTime now r = false)
    (fst (Refunds.getAllPendingRefunds refunds'))
  ∧ snd (Refunds.cleanupExpiredRefunds Date_getTime now refunds') = refunds'.
Proof.
  cbv zeta. rewrite !cleanupExpiredRefunds_run.
  assert (∀ r, refund_stale Date_getTime now (refund_swept Date_getTime now r) = false)
    as Hfresh.
  { intros r. unfold refund_swept.
    destruct (refund_stale Date_getTime now r) eqn:Hst; [|done].
    unfold refund_stale. by rewrite bool_decide_eq_false_2. }
  split.
  - unfold Refunds.getAllPendingRefunds. unfold_ledger. cbn [fst].
    apply Forall_forall.
    intros r' [Hst (r & -> & _)%list_elem_of_fmap]%list_elem_of_filter.
    specialize (Hfresh r). unfold refund_stale in Hfresh.
    by rewrite bool_decide_eq_true_2 in Hfresh.
  - apply refund_swept_nothing.
    induction refunds as [|r rest IH]; [done|].
    cbn [fmap list_fmap existsb]. by rewrite Hfresh.
Qed.

End RefundProperties.

(** A refund expected since 2024-01-01, swept on 2024-01-09. *)
Lemma refund_sweep_sample :
  Refunds.status <$> sample_refunds = [Refunds.pending]
  ∧ Refunds.status
    <$> snd (Refunds.cleanupExpiredRefunds sample_getTime sample_now sample_refunds)
        !! 0
    = Some Refunds.expired.
Proof.
  split; [reflexivity|].
  destruct (refund_sweep sample_getTime sample_now sample_refunds) as (Hold & _).
  erewrite (Hold 0 _ 1704067200000%Z); [reflexivity|reflexivity|reflexivity|reflexivity|].
  unfold sample_now, Refunds.ONE_DAY. lia.
Defined.

Lemma updateRefundStatus_run refundId st extra refunds :
  snd (Refunds.updateRefundStatus refundId st extra refunds)
  = match list_find (λ r, Refunds.id r = refundId) refunds with
    | Some (i, r) => <[i := Refunds.spread r extra st]> refunds
    | None => refunds
    end.
Proof.
  unfold Refunds.updateRefundStatus, findIndex. unfold_ledger.
  destruct (list_find _ _) as [[i r]|] eqn:Hfind; cbn [fmap option_fmap option_map fst];
    [|done].
  apply list_find_Some in Hfind as (Hr & _). by rewrite Hr.
Qed.

(** X25. [updateRefundStatus] on an id no refund has changes nothing;
    otherwise it rewrites the first refund with that id, in place: the
    status is the one asked for, and each of the eight other fields is
    the one of the additional data when it has one and the stored one
    otherwise; every other refund is left as it is. *)
Theorem refund_status_update refundId st extra refunds :
  let refunds' := snd (Refunds.updateRefundStatus refundId st extra refunds) in
  length refunds' = length refunds
  ∧ match list_find (λ r, Refunds.id r = refundId) refunds with
    | None => refunds' = refunds
    | Some (i, r) =>
        ∃ r', refunds' !! i = Some r'
          ∧ Refunds.status r' = st
          ∧ Refunds.id r' = default (Refunds.id r) (Refunds.p_id extra)
          ∧ Refunds.walletAddress r'
            = default (Refunds.walletAddress r) (Refunds.p_walletAddress extra)
          ∧ Refunds.amount r' = default (Refunds.amount r) (Refunds.p_amount extra)
          ∧ Refunds.reason r' = default (Refunds.reason r) (Refunds.p_reason extra)
          ∧ Refunds.kripiCardBalanceBefore r'
            = default (Refunds.kripiCardBalanceBefore r)
                (Refunds.p_kripiCardBalanceBefore extra)
          ∧ Refunds.createdAt r'
            = default (Refunds.createdAt r) (Refunds.p_createdAt extra)
          ∧ Refunds.detectedAt r'
            = default (Refunds.detectedAt r) (Refunds.p_detectedAt extra)
          ∧ Refunds.creditedAt r'
            = default (Refunds.creditedAt r) (Refunds.p_creditedAt extra)
          ∧ ∀ j, j ≠ i → refunds' !! j = refunds !! j
    end.
Proof.
  cbv zeta. rewrite updateRefundStatus_run.
  destruct (list_find _ _) as [[i r]|] eqn:Hfind; [|done].
  split; [apply length_insert|].
  apply list_find_Some in Hfind as (Hr & _).
  exists (Refunds.spread r extra st). split_and!; try done.
  - apply list_lookup_insert_eq. by eapply lookup_lt_Some.
  - intros j Hj. by apply list_lookup_insert_ne.
Qed.

(** X26. The pending refunds of a wallet are the pending refunds of all
    wallets restricted to that wallet.  A refund just added is the last
    of all pending refunds, and the last pending refund of its wallet, of
    no other; it is pending under the generated id. *)
Theorem pending_refunds_by_wallet wallet refunds :
  fst (Refunds.getPendingRefundsForWallet wallet refunds)
  = filter (λ r, Refunds.walletAddress r = wallet)
      (fst (Refunds.getAllPendingRefunds refunds))
  ∧ ∀ uuid now refund,
      let added := fst (Refunds.addPendingRefund uuid now refund refunds) in
      let refunds' := snd (Refunds.addPendingRefund uuid now refund refunds) in
      Refunds.id added = uuid ∧ Refunds.status added = Refunds.pending
      ∧ fst (Refunds.getAllPendingRefunds refunds')
        = (fst (Refunds.getAllPendingRefunds refunds) ++ [added])%list
      ∧ fst (Refunds.getPendingRefundsForWallet wallet refunds')
        = (fst (Refunds.getPendingRefundsForWallet wallet refunds)
           ++ if decide (Refunds.n_walletAddress refund = wallet)
              then [added] else [])%list.
Proof.
  unfold Refunds.getPendingRefundsForWallet, Refunds.getAllPendingRefunds,
    Refunds.addPendingRefund.
  unfold_ledger. cbn [fst snd]. split.
  - by rewrite list_filter_filter.
  - intros uuid now refund. cbv zeta. split_and!; try done.
    + rewrite filter_app, filter_cons_True by done. by rewrite filter_nil.
    + rewrite filter_app, filter_cons, filter_nil. cbn [Refunds.walletAddress Refunds.status].
      destruct (decide (Refunds.n_walletAddress refund = wallet)).
      * by rewrite decide_True.
      * by rewrite decide_False by (by intros [? _]).
Qed.

(** X27. Moving the first refund with a given id out of status pending
    (to detected, credited or expired) removes exactly one refund from the
    pending refunds. *)
Theorem marked_refund_leaves_pending refundId st extra refunds i r :
  list_find (λ r, Refunds.id r = refundId) refunds = Some (i, r) →
  Refunds.status r = Refunds.pending → st ≠ Refunds.pending →
  let refunds' := snd (Refunds.updateRefundStatus refundId st extra refunds) in
  S (length (fst (Refunds.getAllPendingRefunds refunds')))
  = length (fst (Refunds.getAllPendingRefunds refunds)).
Proof.
  intros Hfind Hpending Hst. cbv zeta.
  rewrite updateRefundStatus_run, Hfind.
  apply list_find_Some in Hfind as (Hr & _).
  unfold Refunds.getAllPendingRefunds. unfold_ledger. cbn [fst].
  rewrite insert_take_drop by (by eapply lookup_lt_Some).
  rewrite <- (take_drop_middle refunds i r Hr) at 3.
  rewrite !filter_app, !length_app.
  rewrite filter_cons_False by done.
  rewrite (filter_cons_True _ r) by done. cbn [length]. lia.
Qed.

(** The sample refund marked credited. *)
Lemma marked_refund_leaves_pending_sample :
  length (fst (Refunds.getAllPendingRefunds sample_refunds)) = 1
  ∧ fst (Refunds.getAllPendingRefunds
           (snd (Refunds.updateRefundStatus "refund-1" Refunds.credited
                   (Refunds.mkPartialRefund None None None None None None None
                      None (Some (Some "2024-01-02T00:00:00.000Z")))
                   sample_refunds)))
    = [].
Proof.
  split; [reflexivity|].
  eassert (list_find (λ r, Refunds.id r = "refund-1") sample_refunds = Some (0, _))
    as Hfind by reflexivity.
  pose proof (marked_refund_leaves_pending "refund-1" Refunds.credited
                (Refunds.mkPartialRefund None None None None None None None
                   None (Some (Some "2024-01-02T00:00:00.000Z")))
                sample_refunds 0 _ Hfind eq_refl) as Hone.
  cbv zeta in Hone. apply length_zero_iff_nil.
  assert (Refunds.credited ≠ Refunds.pending) as Hst by discriminate.
  specialize (Hone Hst).
  change (length (fst (Refunds.getAllPendingRefunds sample_refunds))) with 1 in Hone.
  lia.
Defined.
